(** * variableInputTX: the RTT-driven blink transmitter

    A shallow embedding of [src/variableInputTX.c] (the DW3000 "simple TX"
    example with J-Link RTT input).  The program owns one static 12-byte
    frame [tx_msg]; [update_tx_msg] folds pending RTT input into it and
    [app_main] brings the radio up and then loops forever, transmitting the
    frame whenever its first byte is non-zero.

    The embedding is a state-and-output monad over the frame: every call
    into a collaborator (RTT, the DW3000 driver, the logger, [Sleep]) and
    every store into [tx_msg] is recorded as an [event], and whatever a
    collaborator returns is supplied by an environment script.  A busy-wait
    that has used up its script, a [while (1)] halt and an out-of-range or
    uninitialised access end the run with a [stop] reason. *)

From Stdlib Require Import String.
From Stdlib Require Import ZArith NArith List Lia Bool.
From Stdlib Require Import Strings.Byte.
Import ListNotations.
Local Open Scope Z_scope.

(** ** Data *)

(** [static uint8_t tx_msg[12]] *)
Definition frame := list byte.

Definition sizeof_tx_msg : Z := 12.

(** The limits of the 32-bit [int] of the target. *)
Definition INT_MIN : Z := - 2 ^ 31.
Definition INT_MAX : Z := 2 ^ 31 - 1.

(** [#define BLINK_FRAME_SN_IDX 1] *)
Definition BLINK_FRAME_SN_IDX : Z := 1.

(** [#define TX_DELAY_MS 10] *)
Definition TX_DELAY_MS : Z := 10.

(** [#define APP_NAME "SIMPLE TX v1.0"] *)
Definition APP_NAME : string := "SIMPLE TX v1.0"%string.

(** Static storage is zero-initialised. *)
Definition tx_msg_init : frame := repeat x00 (Z.to_nat sizeof_tx_msg).

Definition wf_frame (fr : frame) : Prop := length fr = 12%nat.

(** The constants of [shared_defines.h], [deca_device_api.h] and
    [deca_regs.h] that the program computes with.  The headers are not part
    of the sources, so the development is parametric in them. *)
Class dw_defines : Type := {
  FCS_LEN : Z;
  DWT_ERROR : Z;
  SYS_STATUS_TXFRS_BIT_MASK : Z
}.

(** Everything the program does that is visible from outside, plus its own
    stores into [tx_msg] and loads from the scratch [input_buffer]. *)
Inductive event : Type :=
| EvStore (i : Z) (v : byte)              (* tx_msg[i] = v *)
| EvLoad (i : Z)                          (* ... = input_buffer[i] *)
| EvRttRead (size : Z) (ret : Z)          (* SEGGER_RTT_Read(0, buf, size) *)
| EvLogInf (msg : string)
| EvLogErr (msg : string)
| EvHexdump (data : list byte) (label : string)
| EvSpiFastrate                           (* port_set_dw_ic_spi_fastrate() *)
| EvResetDWIC                             (* reset_DWIC() *)
| EvSleep (ms : Z)
| EvCheckIdleRc (ret : Z)                 (* dwt_checkidlerc() *)
| EvInitialise (ret : Z)                  (* dwt_initialise(DWT_DW_INIT) *)
| EvSetLeds                               (* dwt_setleds(...) *)
| EvConfigure (ret : Z)                   (* dwt_configure(&config) *)
| EvConfigureTxRf                         (* dwt_configuretxrf(...) *)
| EvWriteTxData (len : Z) (data : list byte) (offset : Z)
| EvWriteTxFctrl (len : Z) (offset : Z) (ranging : Z)
| EvStartTx                               (* dwt_starttx(DWT_START_TX_IMMEDIATE) *)
| EvReadStatus (v : Z)                    (* dwt_read32bitreg(SYS_STATUS_ID) *)
| EvWriteStatus (v : Z).                  (* dwt_write32bitreg(SYS_STATUS_ID, v) *)

(** Why a run ends without returning. *)
Inductive stop : Type :=
| OutOfBounds      (* an index outside the array it is used on *)
| Uninitialised    (* a load from a scratch byte nobody wrote *)
| Polling          (* still in a busy-wait when the script ran out *)
| Halted.          (* parked in [while (1)] after a fatal error *)

Inductive outcome (A : Type) : Type :=
| Ret (a : A)
| Stop (r : stop).
Arguments Ret {A} a.
Arguments Stop {A} r.

Record run (A : Type) : Type := MkRun {
  res : outcome A;
  mem : frame;
  evs : list event
}.
Arguments MkRun {A} res mem evs.
Arguments res {A} r.
Arguments mem {A} r.
Arguments evs {A} r.

(** ** The monad *)

Definition M (A : Type) : Type := frame -> run A.

Definition ret {A} (a : A) : M A := fun fr => MkRun (Ret a) fr [].

Definition bind {A B} (m : M A) (f : A -> M B) : M B :=
  fun fr =>
    let r := m fr in
    match res r with
    | Ret a => let r' := f a (mem r) in MkRun (res r') (mem r') (evs r ++ evs r')
    | Stop k => MkRun (Stop k) (mem r) (evs r)
    end.

Definition emit (e : event) : M unit := fun fr => MkRun (Ret tt) fr [e].

Definition halt {A} (k : stop) : M A := fun fr => MkRun (Stop k) fr [].

Definition get : M frame := fun fr => MkRun (Ret fr) fr [].

Notation "x <- m ;; k" := (bind m (fun x => k))
  (at level 61, m at next level, right associativity).
Notation "m ;; k" := (bind m (fun _ => k))
  (at level 61, right associativity).

(** ** Memory *)

Fixpoint set_nth {A} (n : nat) (v : A) (l : list A) : list A :=
  match l, n with
  | [], _ => []
  | _ :: t, O => v :: t
  | h :: t, S n' => h :: set_nth n' v t
  end.

Definition in_bounds {A} (i : Z) (l : list A) : bool :=
  (0 <=? i) && (i <? Z.of_nat (length l)).

(** [tx_msg[i] = v] *)
Definition store (i : Z) (v : byte) : M unit :=
  fun fr =>
    if in_bounds i fr
    then MkRun (Ret tt) (set_nth (Z.to_nat i) v fr) [EvStore i v]
    else MkRun (Stop OutOfBounds) fr [].

(** [tx_msg[i]] read *)
Definition load (i : Z) : M byte :=
  fun fr =>
    if in_bounds i fr
    then MkRun (Ret (nth (Z.to_nat i) fr x00)) fr []
    else MkRun (Stop OutOfBounds) fr [].

(** The local [char input_buffer[sizeof(tx_msg) - 1]]: nothing is stored in
    it at declaration, so each cell is [None] until RTT fills it. *)
Definition scratch := list (option byte).

(** [input_buffer[i]] read *)
Definition peek (buf : scratch) (i : Z) : M byte :=
  if in_bounds i buf
  then match nth (Z.to_nat i) buf None with
       | Some b => emit (EvLoad i) ;; ret b
       | None => halt Uninitialised
       end
  else halt OutOfBounds.

(** [tx_msg[BLINK_FRAME_SN_IDX]++] on a [uint8_t]. *)
Definition byte_incr (b : byte) : byte :=
  match Byte.of_N ((Byte.to_N b + 1) mod 256) with
  | Some b' => b'
  | None => x00
  end.

(** ** Loops *)

Fixpoint for_loop (n : nat) (i : Z) (body : Z -> M unit) : M unit :=
  match n with
  | O => ret tt
  | S n' => body i ;; for_loop n' (i + 1) body
  end.

(** [for (int i = lo; i < hi; i++) body] *)
Definition for_range (lo hi : Z) (body : Z -> M unit) : M unit :=
  for_loop (Z.to_nat (hi - lo)) lo body.

(** ** The interactive input channel *)

(** Modelled from the spec: [SEGGER_RTT_Read] is the RTT library's
    non-blocking read, which is not among the sources.  Section 6 gives its
    contract: [read(buffer, max_len) -> bytes_read], returning 0 when no
    data is pending.  [pending] is what the host has written and the target
    has not yet consumed at the time of the call; at most [BufferSize] of
    those bytes land at the start of the buffer. *)
Definition SEGGER_RTT_Read (pending : list byte) (buf : scratch)
    (BufferSize : Z) : Z * scratch :=
  let data := firstn (Z.to_nat BufferSize) pending in
  (Z.of_nat (length data), map Some data ++ skipn (length data) buf).

(** What the environment supplies during one pass through the transmit loop:
    the bytes pending on RTT when the pass reads it, and the values the
    status register shows on successive polls. *)
Record cycle_env : Type := MkCycle {
  rtt_pending : list byte;
  status_reads : list Z
}.

(** What the device answers during bring-up. *)
Record boot_env : Type := MkBoot {
  idle_checks : list Z;
  init_ret : Z;
  configure_ret : Z
}.

(** The body of the [for] loop in [update_tx_msg]. *)
Definition copy_or_pad (bytes_read : Z) (input_buffer : scratch) (i : Z)
    : M unit :=
  if i <=? bytes_read + 1
  then b <- peek input_buffer (i - 2) ;; store i b
  else store i x00.

(** The part of [update_tx_msg] after the read.  [bytes_read] and [i] are
    [int]s in the source; the only arithmetic on them is [bytes_read + 1]
    and [i++] with [i] below 12.  They are integers here, which is what the
    source computes as long as [bytes_read] is an [int] below [INT_MAX]:
    at [INT_MAX] the sum overflows in the source and does not here, so
    nothing is stated about [update_from] there.  The read returns 0 to 10. *)
Definition update_from (bytes_read : Z) (input_buffer : scratch) : M unit :=
  if 0 <? bytes_read then
    for_range 2 sizeof_tx_msg (copy_or_pad bytes_read input_buffer) ;;
    store 0 xc5
  else ret tt.

Definition update_tx_msg (pending : list byte) : M unit :=
  let input_buffer : scratch := repeat None (Z.to_nat (sizeof_tx_msg - 1)) in
  let rd := SEGGER_RTT_Read pending input_buffer (sizeof_tx_msg - 2) in
  emit (EvRttRead (sizeof_tx_msg - 2) (fst rd)) ;;
  update_from (fst rd) (snd rd).

Section Program.

Context {D : dw_defines}.

(** [#define FRAME_LENGTH (sizeof(tx_msg) + FCS_LEN)] *)
Definition FRAME_LENGTH : Z := sizeof_tx_msg + FCS_LEN.

(** [while (!(dwt_read32bitreg(SYS_STATUS_ID) & SYS_STATUS_TXFRS_BIT_MASK))] *)
Fixpoint wait_txfrs (reads : list Z) : M unit :=
  match reads with
  | [] => halt Polling
  | v :: rest =>
      emit (EvReadStatus v) ;;
      if Z.land v SYS_STATUS_TXFRS_BIT_MASK =? 0 then wait_txfrs rest else ret tt
  end.

(** One pass through the body of [while (1)] in [app_main].  The label of
    the hex dump is what [sprintf(len, "len %d", FRAME_LENGTH - FCS_LEN)]
    prints: [FRAME_LENGTH - FCS_LEN] is [sizeof(tx_msg)], 12. *)
Definition run_cycle (e : cycle_env) : M unit :=
  update_tx_msg (rtt_pending e) ;;
  tag <- load 0 ;;
  if negb (Byte.eqb tag x00) then
    fr <- get ;;
    emit (EvHexdump fr "len 12"%string) ;;
    emit (EvWriteTxData (FRAME_LENGTH - FCS_LEN)
            (firstn (Z.to_nat (FRAME_LENGTH - FCS_LEN)) fr) 0) ;;
    emit (EvWriteTxFctrl FRAME_LENGTH 0 0) ;;
    emit EvStartTx ;;
    wait_txfrs (status_reads e) ;;
    emit (EvWriteStatus SYS_STATUS_TXFRS_BIT_MASK) ;;
    emit (EvSleep TX_DELAY_MS) ;;
    sn <- load BLINK_FRAME_SN_IDX ;;
    store BLINK_FRAME_SN_IDX (byte_incr sn) ;;
    store 0 x00
  else ret tt.

Fixpoint transmit_loop (cycles : list cycle_env) : M unit :=
  match cycles with
  | [] => ret tt
  | e :: rest => run_cycle e ;; transmit_loop rest
  end.

(** [while (!dwt_checkidlerc()) { }] *)
Fixpoint wait_idlerc (checks : list Z) : M unit :=
  match checks with
  | [] => halt Polling
  | c :: rest =>
      emit (EvCheckIdleRc c) ;;
      if c =? 0 then wait_idlerc rest else ret tt
  end.

(** [app_main] up to and including the first [length cycles] passes of its
    endless loop.  [Ret tt] means the loop is back at its head. *)
Definition app_main (b : boot_env) (cycles : list cycle_env) : M unit :=
  store BLINK_FRAME_SN_IDX x00 ;;
  emit (EvLogInf APP_NAME) ;;
  emit EvSpiFastrate ;;
  emit EvResetDWIC ;;
  emit (EvSleep 2) ;;
  wait_idlerc (idle_checks b) ;;
  emit (EvInitialise (init_ret b)) ;;
  (if init_ret b =? DWT_ERROR
   then emit (EvLogErr "INIT FAILED"%string) ;; halt Halted
   else ret tt) ;;
  emit EvSetLeds ;;
  emit (EvConfigure (configure_ret b)) ;;
  (if negb (configure_ret b =? 0)
   then emit (EvLogErr "CONFIG FAILED"%string) ;; halt Halted
   else ret tt) ;;
  emit EvConfigureTxRf ;;
  emit (EvLogInf "Sending started"%string) ;;
  transmit_loop cycles.

(** The whole program, started on the zero-initialised frame. *)
Definition program (b : boot_env) (cycles : list cycle_env) : run unit :=
  app_main b cycles tx_msg_init.

End Program.

(** ** Vocabulary of the statements *)

(** The constants with the values of the DW3000 driver headers. *)
Definition dw3000 : dw_defines :=
  {| FCS_LEN := 2; DWT_ERROR := -1; SYS_STATUS_TXFRS_BIT_MASK := 0x80 |}.

(** Inputs the statements are tried on. *)
Definition ABCDEFGH : list byte := [x41; x42; x43; x44; x45; x46; x47; x48].

(** Fifteen pending bytes: five more than the payload holds. *)
Definition overlong : list byte :=
  ABCDEFGH ++ [x49; x4a; x4b; x4c; x4d; x4e; x4f].

(** A frame left ready, with sequence number 7 and an old payload. *)
Definition stale_frame : frame :=
  [xc5; x07; x61; x62; x63; x00; x00; x00; x00; x00; x00; x00].

(** An idle frame whose sequence number is about to wrap. *)
Definition wrapping_frame : frame :=
  [x00; xff; x00; x00; x00; x00; x00; x00; x00; x00; x00; x00].

(** A pass with nothing pending. *)
Definition quiet_cycle : cycle_env := MkCycle [] [].

(** A pass with eight bytes pending; the sent bit shows on the second poll. *)
Definition input_cycle : cycle_env := MkCycle ABCDEFGH [0; 0x80].

(** Bring-up that succeeds after one failed idle check. *)
Definition good_boot : boot_env := MkBoot [0; 1] 0 0.

(** Bring-up in which [dwt_configure] answers 3. *)
Definition rejected_boot : boot_env := MkBoot [0; 1] 0 3.

(** Bring-up in which [dwt_initialise] answers -1. *)
Definition dead_boot : boot_env := MkBoot [1] (-1) 0.

(** Bring-up in which the device never reaches IDLE_RC. *)
Definition stuck_boot : boot_env := MkBoot [0; 0; 0] 0 0.

(** A pass with eight bytes pending in which the sent bit never shows. *)
Definition stalled_cycle : cycle_env := MkCycle ABCDEFGH [0; 0; 0].

(** A pass with fifteen bytes pending. *)
Definition overlong_cycle : cycle_env := MkCycle overlong [0x80].

(** A pass with nothing pending, on a device that answers at once. *)
Definition prompt_cycle : cycle_env := MkCycle [] [0x80].

(** A frame whose byte 0 is neither 0 nor [0xC5]. *)
Definition odd_frame : frame :=
  [x01; x07; x61; x62; x63; x00; x00; x00; x00; x00; x00; x00].

(** Byte 0 of the frame: the frame type, [0xC5] for a blink. *)
Definition tag (fr : frame) : byte := nth 0 fr x00.

(** Byte 1 of the frame: the sequence number. *)
Definition seq_num (fr : frame) : byte := nth 1 fr x00.

(** How many payload bytes the frame holds: bytes 2..11. *)
Definition capacity : nat := Z.to_nat (sizeof_tx_msg - 2).

(** What the read in [update_tx_msg] returns when [pending] is waiting. *)
Definition bytes_read (pending : list byte) : Z :=
  fst (SEGGER_RTT_Read pending (repeat None (Z.to_nat (sizeof_tx_msg - 1)))
         (sizeof_tx_msg - 2)).

(** The accesses [update_tx_msg] is allowed: stores to the type byte and to
    the payload bytes of [tx_msg], loads inside [input_buffer], and a read
    request that fits the buffer. *)
Definition frame_access_ok (e : event) : Prop :=
  match e with
  | EvStore i _ => i = 0 \/ 2 <= i < sizeof_tx_msg
  | EvLoad i => 0 <= i < sizeof_tx_msg - 1
  | EvRttRead size _ => 0 <= size <= sizeof_tx_msg - 1
  | _ => False
  end.

(** What [update_tx_msg] actually emits: the one read of at most ten bytes,
    loads from the part of the buffer the read can fill, payload stores, and
    the blink tag into byte 0. *)
Definition ingest_event (e : event) : Prop :=
  match e with
  | EvStore i v => (i = 0 /\ v = xc5) \/ 2 <= i < sizeof_tx_msg
  | EvLoad i => 0 <= i < sizeof_tx_msg - 2
  | EvRttRead size _ => size = sizeof_tx_msg - 2
  | _ => False
  end.

(** What one pass of the copy loop stores into [tx_msg[j]]. *)
Definition payload_at (n : Z) (buf : scratch) (j : Z) : byte :=
  if j <=? n + 1
  then match nth (Z.to_nat (j - 2)) buf None with
       | Some b => b
       | None => x00
       end
  else x00.

(** The frame after a read that brought bytes: the blink tag, the old
    sequence number, the bytes read and zero padding. *)
Definition loaded (inp : list byte) (fr : frame) : frame :=
  let k := Nat.min (length inp) capacity in
  xc5 :: seq_num fr :: firstn k inp ++ repeat x00 (capacity - k).

(** What [update_tx_msg] leaves in the frame. *)
Definition ingested (inp : list byte) (fr : frame) : frame :=
  match inp with
  | [] => fr
  | _ :: _ => loaded inp fr
  end.

(** The reads a busy-wait consumes: up to and including the first one that
    ends it. *)
Fixpoint polled (done : Z -> bool) (reads : list Z) : list Z :=
  match reads with
  | [] => []
  | v :: rest => if done v then [v] else v :: polled done rest
  end.

Definition is_start_tx (e : event) : bool :=
  match e with EvStartTx => true | _ => false end.

Definition is_write_tx_data (e : event) : bool :=
  match e with EvWriteTxData _ _ _ => true | _ => false end.

Definition is_log_err (e : event) : bool :=
  match e with EvLogErr _ => true | _ => false end.

Definition is_sleep (e : event) : bool :=
  match e with EvSleep _ => true | _ => false end.

Definition is_configure (e : event) : bool :=
  match e with EvConfigure _ => true | _ => false end.

Definition is_write_status (e : event) : bool :=
  match e with EvWriteStatus _ => true | _ => false end.

Definition is_sn_store (e : event) : bool :=
  match e with EvStore i _ => i =? BLINK_FRAME_SN_IDX | _ => false end.

(** The calls of the transmit primitive. *)
Definition is_transmit (e : event) : bool :=
  match e with
  | EvWriteTxData _ _ _ | EvWriteTxFctrl _ _ _ | EvStartTx => true
  | _ => false
  end.

(** How often the transmit was started. *)
Definition tx_count (l : list event) : nat := length (filter is_start_tx l).

(** The frame handed to the first [dwt_writetxdata] of a trace. *)
Fixpoint first_tx_data (l : list event) : option (list byte) :=
  match l with
  | [] => None
  | EvWriteTxData _ data _ :: _ => Some data
  | _ :: rest => first_tx_data rest
  end.

(** A store into byte 0 writes one of the two sentinels. *)
Definition tag_store_ok (e : event) : Prop :=
  match e with
  | EvStore 0 v => v = x00 \/ v = xc5
  | _ => True
  end.

(** Nothing of a transmission: no driver call of the transmit path, no
    sleep, no store into the sequence number. *)
Definition idle_event (e : event) : Prop :=
  match e with
  | EvHexdump _ _ | EvWriteTxData _ _ _ | EvWriteTxFctrl _ _ _ | EvStartTx
  | EvReadStatus _ | EvWriteStatus _ | EvSleep _ => False
  | EvStore i _ => i <> BLINK_FRAME_SN_IDX
  | _ => True
  end.

(** The frames handed to [dwt_writetxdata], in order. *)
Fixpoint tx_frames (l : list event) : list (list byte) :=
  match l with
  | [] => []
  | EvWriteTxData _ data _ :: rest => data :: tx_frames rest
  | _ :: rest => tx_frames rest
  end.

(** The milliseconds spent in [Sleep]. *)
Fixpoint sleep_total (l : list event) : Z :=
  match l with
  | [] => 0
  | EvSleep ms :: rest => ms + sleep_total rest
  | _ :: rest => sleep_total rest
  end.

(** The blink frame with sequence number [sn] that carries [inp]. *)
Definition blink (sn : byte) (inp : list byte) : frame :=
  let k := Nat.min (length inp) capacity in
  xc5 :: sn :: firstn k inp ++ repeat x00 (capacity - k).


(** The events of one call of [update_tx_msg], in closed form: the read;
    then, if it brought [k > 0] bytes, a load and a store for each of them,
    a store of zero for each payload byte left, and the store of the tag. *)
Definition ingest_trace (inp : list byte) : list event :=
  let k := Nat.min (length inp) capacity in
  EvRttRead 10 (Z.of_nat k)
  :: if (k =? 0)%nat then []
     else flat_map (fun j => [EvLoad (Z.of_nat j);
                              EvStore (Z.of_nat j + 2) (nth j inp x00)])
                   (seq 0 k)
          ++ map (fun j => EvStore (Z.of_nat j + 2) x00) (seq k (capacity - k))
          ++ [EvStore 0 xc5].

(** Where the device stands, as far as the order of the driver calls in
    [app_main] tells. *)
Inductive dw_state : Type :=
| DwOff            (* nothing called yet *)
| DwFast           (* SPI rate set *)
| DwReset          (* reset driven, waiting for IDLE_RC *)
| DwIdle           (* dwt_checkidlerc answered non-zero *)
| DwInitialised    (* dwt_initialise did not fail *)
| DwLeds           (* LEDs enabled *)
| DwConfigured     (* dwt_configure answered 0 *)
| DwReady          (* TX spectrum configured: ready to transmit *)
| DwLoaded         (* frame data written *)
| DwArmed          (* frame control written *)
| DwTransmitting   (* transmission started, sent bit not yet seen *)
| DwSent           (* sent bit seen, not yet cleared *)
| DwFailed.        (* dwt_initialise or dwt_configure failed *)

(** A pass that finds bytes pending on RTT. *)
Definition has_input (e : cycle_env) : Prop := rtt_pending e <> [].

(** The frame after the bookkeeping that follows a transmission. *)
Definition sent (fr : frame) : frame :=
  set_nth 0 x00 (set_nth 1 (byte_incr (seq_num fr)) fr).

Section Vocabulary.

Context {D : dw_defines}.

Definition txfrs_set (v : Z) : bool :=
  negb (Z.land v SYS_STATUS_TXFRS_BIT_MASK =? 0).

Definition idle_rc (c : Z) : bool := negb (c =? 0).

(** The device reports the end of the transmission within the polls the
    environment script covers. *)
Definition completes (e : cycle_env) : Prop :=
  existsb txfrs_set (status_reads e) = true.

(** The driver calls that put the frame on the air. *)
Definition tx_events (fr : frame) : list event :=
  [EvHexdump fr "len 12"%string; EvWriteTxData sizeof_tx_msg fr 0;
   EvWriteTxFctrl FRAME_LENGTH 0 0; EvStartTx].

(** What follows once the sent flag has been seen. *)
Definition done_events (fr : frame) : list event :=
  [EvWriteStatus SYS_STATUS_TXFRS_BIT_MASK; EvSleep TX_DELAY_MS;
   EvStore BLINK_FRAME_SN_IDX (byte_incr (seq_num fr)); EvStore 0 x00].

(** The events of bring-up before the answer of [dwt_initialise]. *)
Definition reset_events (b : boot_env) : list event :=
  [EvStore BLINK_FRAME_SN_IDX x00; EvLogInf APP_NAME; EvSpiFastrate;
   EvResetDWIC; EvSleep 2]
  ++ map EvCheckIdleRc (polled idle_rc (idle_checks b)).

(** Bring-up stopped by [dwt_initialise]. *)
Definition init_failed_events (b : boot_env) : list event :=
  [EvInitialise (init_ret b); EvLogErr "INIT FAILED"%string].

(** Bring-up stopped by [dwt_configure]. *)
Definition config_failed_events (b : boot_env) : list event :=
  [EvInitialise (init_ret b); EvSetLeds; EvConfigure (configure_ret b);
   EvLogErr "CONFIG FAILED"%string].

(** Bring-up carried through to the loop. *)
Definition ready_events (b : boot_env) : list event :=
  [EvInitialise (init_ret b); EvSetLeds; EvConfigure (configure_ret b);
   EvConfigureTxRf; EvLogInf "Sending started"%string].

(** A frame the program can hold when its loop is at the head of a pass. *)
Definition at_loop_head (fr : frame) : Prop :=
  exists b cycles,
    res (program b cycles) = Ret tt /\ mem (program b cycles) = fr.

(** One driver call in the order [app_main] makes them; [None] for a call
    out of turn or with other arguments.  Stores, loads, the RTT read, the
    logger and [Sleep] are no driver calls and leave the state alone. *)
Definition dw_step (s : dw_state) (e : event) : option dw_state :=
  match e with
  | EvStore _ _ | EvLoad _ | EvRttRead _ _ | EvLogInf _ | EvLogErr _
  | EvHexdump _ _ | EvSleep _ => Some s
  | EvSpiFastrate =>
      match s with DwOff => Some DwFast | _ => None end
  | EvResetDWIC =>
      match s with DwFast => Some DwReset | _ => None end
  | EvCheckIdleRc c =>
      match s with
      | DwReset => Some (if idle_rc c then DwIdle else DwReset)
      | _ => None
      end
  | EvInitialise r =>
      match s with
      | DwIdle => Some (if r =? DWT_ERROR then DwFailed else DwInitialised)
      | _ => None
      end
  | EvSetLeds =>
      match s with DwInitialised => Some DwLeds | _ => None end
  | EvConfigure r =>
      match s with
      | DwLeds => Some (if r =? 0 then DwConfigured else DwFailed)
      | _ => None
      end
  | EvConfigureTxRf =>
      match s with DwConfigured => Some DwReady | _ => None end
  | EvWriteTxData len data off =>
      match s with
      | DwReady =>
          if (len =? sizeof_tx_msg) && (length data =? 12)%nat && (off =? 0)
          then Some DwLoaded else None
      | _ => None
      end
  | EvWriteTxFctrl len off ranging =>
      match s with
      | DwLoaded =>
          if (len =? sizeof_tx_msg + FCS_LEN) && (off =? 0) && (ranging =? 0)
          then Some DwArmed else None
      | _ => None
      end
  | EvStartTx =>
      match s with DwArmed => Some DwTransmitting | _ => None end
  | EvReadStatus v =>
      match s with
      | DwTransmitting => Some (if txfrs_set v then DwSent else DwTransmitting)
      | _ => None
      end
  | EvWriteStatus v =>
      match s with
      | DwSent => if v =? SYS_STATUS_TXFRS_BIT_MASK then Some DwReady else None
      | _ => None
      end
  end.

Fixpoint dw_run (s : dw_state) (l : list event) : option dw_state :=
  match l with
  | [] => Some s
  | e :: rest =>
      match dw_step s e with
      | Some s' => dw_run s' rest
      | None => None
      end
  end.


End Vocabulary.

(** ** The monad and the memory operations *)

Lemma bind_unfold {A B} (m : M A) (f : A -> M B) (fr : frame) :
  bind m f fr =
  match res (m fr) with
  | Ret a => MkRun (res (f a (mem (m fr)))) (mem (f a (mem (m fr))))
               (evs (m fr) ++ evs (f a (mem (m fr))))
  | Stop k => MkRun (Stop k) (mem (m fr)) (evs (m fr))
  end.
Proof. reflexivity. Qed.

Lemma run_eta {A} (r : run A) : MkRun (res r) (mem r) (evs r) = r.
Proof. destruct r; reflexivity. Qed.

Lemma set_nth_length {A} (n : nat) (v : A) (l : list A) :
  length (set_nth n v l) = length l.
Proof.
  revert n; induction l as [|h t IH]; intros [|n]; simpl; auto.
Qed.

Lemma in_bounds_iff {A} (i : Z) (l : list A) :
  in_bounds i l = true <-> 0 <= i < Z.of_nat (length l).
Proof.
  unfold in_bounds. rewrite andb_true_iff, Z.leb_le, Z.ltb_lt. tauto.
Qed.

Lemma store_in_bounds (i : Z) (v : byte) (fr : frame) :
  0 <= i < Z.of_nat (length fr) ->
  store i v fr = MkRun (Ret tt) (set_nth (Z.to_nat i) v fr) [EvStore i v].
Proof.
  intros H. apply in_bounds_iff in H. unfold store. now rewrite H.
Qed.

Lemma load_in_bounds (i : Z) (fr : frame) :
  0 <= i < Z.of_nat (length fr) ->
  load i fr = MkRun (Ret (nth (Z.to_nat i) fr x00)) fr [].
Proof.
  intros H. apply in_bounds_iff in H. unfold load. now rewrite H.
Qed.

Lemma wf_frame_inv (fr : frame) :
  wf_frame fr ->
  exists b0 b1 b2 b3 b4 b5 b6 b7 b8 b9 b10 b11,
    fr = [b0; b1; b2; b3; b4; b5; b6; b7; b8; b9; b10; b11].
Proof.
  unfold wf_frame. intros H.
  do 12 (destruct fr as [|? fr]; [discriminate H|]).
  destruct fr; [|discriminate H].
  repeat eexists.
Qed.

(** ** [update_tx_msg] *)

(** One pass of the copy loop stays inside both arrays, whatever the read
    returned and whatever it left in the buffer. *)
Lemma copy_or_pad_safe (n : Z) (buf : scratch) (i : Z) (fr : frame) :
  wf_frame fr -> length buf = 11%nat -> 2 <= i < 12 ->
  let r := copy_or_pad n buf i fr in
  res r <> Stop OutOfBounds /\ wf_frame (mem r) /\ Forall ingest_event (evs r).
Proof.
  intros Hfr Hbuf Hi. unfold copy_or_pad.
  assert (Hst : forall v, store i v fr =
            MkRun (Ret tt) (set_nth (Z.to_nat i) v fr) [EvStore i v]).
  { intros v. apply store_in_bounds. rewrite Hfr. lia. }
  destruct (i <=? n + 1).
  - unfold peek.
    assert (Hb : in_bounds (i - 2) buf = true).
    { apply in_bounds_iff. rewrite Hbuf. lia. }
    rewrite Hb.
    destruct (nth (Z.to_nat (i - 2)) buf None) as [b|].
    + rewrite bind_unfold. cbn [bind emit ret res mem evs app].
      rewrite Hst. cbn [res mem evs app].
      repeat split.
      * discriminate.
      * unfold wf_frame. now rewrite set_nth_length.
      * constructor; [cbn; unfold sizeof_tx_msg; lia|].
        constructor; [cbn; unfold sizeof_tx_msg; lia | constructor].
    + cbn. repeat split; [discriminate | assumption | constructor].
  - rewrite Hst. cbn [res mem evs].
    repeat split.
    + discriminate.
    + unfold wf_frame. now rewrite set_nth_length.
    + constructor; [cbn; unfold sizeof_tx_msg; lia | constructor].
Qed.

Lemma copy_loop_safe (n : Z) (buf : scratch) (k : nat) :
  forall (i : Z) (fr : frame),
    wf_frame fr -> length buf = 11%nat -> 2 <= i -> i + Z.of_nat k <= 12 ->
    let r := for_loop k i (copy_or_pad n buf) fr in
    res r <> Stop OutOfBounds /\ wf_frame (mem r) /\
    Forall ingest_event (evs r).
Proof.
  induction k as [|k IH]; intros i fr Hfr Hbuf Hlo Hhi.
  - cbn. repeat split; [discriminate | assumption | constructor].
  - cbn [for_loop]. rewrite bind_unfold.
    destruct (copy_or_pad_safe n buf i fr Hfr Hbuf ltac:(lia)) as (Hr & Hm & He).
    destruct (res (copy_or_pad n buf i fr)) as [[]|s] eqn:E.
    + destruct (IH (i + 1) (mem (copy_or_pad n buf i fr)) Hm Hbuf
                  ltac:(lia) ltac:(lia)) as (Hr' & Hm' & He').
      cbn [res mem evs]. repeat split; auto.
      apply Forall_app; auto.
    + cbn [res mem evs]. repeat split; auto.
Qed.

(** Bounds safety of the part after the read, for any return value. *)
Lemma update_from_safe (n : Z) (buf : scratch) (fr : frame) :
  wf_frame fr -> length buf = 11%nat ->
  let r := update_from n buf fr in
  res r <> Stop OutOfBounds /\ wf_frame (mem r) /\
  Forall ingest_event (evs r).
Proof.
  intros Hfr Hbuf. unfold update_from.
  destruct (0 <? n).
  - rewrite bind_unfold. unfold for_range.
    destruct (copy_loop_safe n buf (Z.to_nat (sizeof_tx_msg - 2)) 2 fr Hfr Hbuf
                ltac:(lia) ltac:(unfold sizeof_tx_msg; lia)) as (Hr & Hm & He).
    destruct (res (for_loop _ _ _ _)) as [[]|s] eqn:E.
    + rewrite store_in_bounds by (rewrite Hm; lia).
      cbn [res mem evs]. repeat split.
      * discriminate.
      * unfold wf_frame. now rewrite set_nth_length.
      * apply Forall_app; split; auto.
        constructor; [cbn; auto | constructor].
    + cbn [res mem evs]. repeat split; auto.
  - cbn. repeat split; [discriminate | assumption | constructor].
Qed.

Lemma update_from_nonpositive (n : Z) (buf : scratch) (fr : frame) :
  n <= 0 -> update_from n buf fr = MkRun (Ret tt) fr [].
Proof.
  intros H. unfold update_from.
  destruct (0 <? n) eqn:E; [apply Z.ltb_lt in E; lia | reflexivity].
Qed.

Lemma bytes_read_range (inp : list byte) :
  bytes_read inp = Z.of_nat (Nat.min (length inp) capacity).
Proof.
  unfold bytes_read, SEGGER_RTT_Read, capacity. cbn [fst].
  rewrite length_firstn. f_equal. apply Nat.min_comm.
Qed.

Lemma nth_set_nth {A} (l : list A) :
  forall (i j : nat) (v d : A),
    nth j (set_nth i v l) d =
    if ((j =? i) && (i <? length l))%nat then v else nth j l d.
Proof.
  induction l as [|h t IH]; intros [|i] [|j] v d;
    cbn [set_nth nth length]; try reflexivity.
  - now rewrite andb_false_r.
  - apply IH.
Qed.

(** One pass of the copy loop, when the cell it loads was filled. *)
Lemma copy_or_pad_spec (n : Z) (buf : scratch) (i : Z) (fr : frame) :
  wf_frame fr -> length buf = 11%nat -> 2 <= i < 12 ->
  (i <= n + 1 -> nth (Z.to_nat (i - 2)) buf None <> None) ->
  res (copy_or_pad n buf i fr) = Ret tt /\
  mem (copy_or_pad n buf i fr) = set_nth (Z.to_nat i) (payload_at n buf i) fr.
Proof.
  intros Hfr Hbuf Hi Hinit. unfold copy_or_pad, payload_at.
  assert (Hst : forall v, store i v fr =
            MkRun (Ret tt) (set_nth (Z.to_nat i) v fr) [EvStore i v]).
  { intros v. apply store_in_bounds. rewrite Hfr. lia. }
  destruct (Z.leb_spec i (n + 1)) as [Hle|Hgt].
  - unfold peek.
    assert (Hb : in_bounds (i - 2) buf = true).
    { apply in_bounds_iff. rewrite Hbuf. lia. }
    rewrite Hb. specialize (Hinit Hle).
    destruct (nth (Z.to_nat (i - 2)) buf None) as [b|]; [|contradiction].
    rewrite bind_unfold. cbn [bind emit ret res mem evs app].
    rewrite Hst. split; reflexivity.
  - rewrite Hst. split; reflexivity.
Qed.

(** The copy loop from [i] on, [k] passes: the bytes it ran over hold what
    [payload_at] says, the others are untouched. *)
Lemma copy_loop_spec (n : Z) (buf : scratch) (k : nat) :
  forall (i : Z) (fr : frame),
    wf_frame fr -> length buf = 11%nat -> 2 <= i -> i + Z.of_nat k <= 12 ->
    (forall j, i <= j < i + Z.of_nat k -> j <= n + 1 ->
               nth (Z.to_nat (j - 2)) buf None <> None) ->
    let r := for_loop k i (copy_or_pad n buf) fr in
    res r = Ret tt /\ wf_frame (mem r) /\
    forall j : nat,
      nth j (mem r) x00 =
      if (i <=? Z.of_nat j) && (Z.of_nat j <? i + Z.of_nat k)
      then payload_at n buf (Z.of_nat j)
      else nth j fr x00.
Proof.
  induction k as [|k IH]; intros i fr Hfr Hbuf Hlo Hhi Hinit.
  - cbn [for_loop]. split; [reflexivity|]. split; [exact Hfr|].
    intros j. cbn [ret mem].
    destruct (Z.leb_spec i (Z.of_nat j)), (Z.ltb_spec (Z.of_nat j) (i + Z.of_nat 0));
      cbn [andb]; try reflexivity; lia.
  - cbn [for_loop]. rewrite bind_unfold.
    destruct (copy_or_pad_spec n buf i fr Hfr Hbuf ltac:(lia)) as (Hr & Hm).
    { apply Hinit. lia. }
    rewrite Hr, Hm.
    set (fr' := set_nth (Z.to_nat i) (payload_at n buf i) fr).
    assert (Hfr' : wf_frame fr').
    { unfold wf_frame, fr'. now rewrite set_nth_length. }
    destruct (IH (i + 1) fr' Hfr' Hbuf ltac:(lia) ltac:(lia)) as (Hr' & Hm' & Hn').
    { intros j Hj. apply Hinit. lia. }
    cbn [res mem]. split; [exact Hr'|]. split; [exact Hm'|].
    intros j. rewrite Hn'. unfold fr'. rewrite nth_set_nth, Hfr.
    destruct (Z.leb_spec (i + 1) (Z.of_nat j)),
             (Z.ltb_spec (Z.of_nat j) (i + 1 + Z.of_nat k)),
             (Z.leb_spec i (Z.of_nat j)),
             (Z.ltb_spec (Z.of_nat j) (i + Z.of_nat (S k)));
      cbn [andb]; try lia;
      destruct (Nat.eqb_spec j (Z.to_nat i));
      destruct (Nat.ltb_spec (Z.to_nat i) 12);
      cbn [andb]; try reflexivity; try lia.
    subst j. rewrite Z2Nat.id by lia. reflexivity.
Qed.

(** The part after the read, for any positive return value, as long as the
    cells the loop loads were filled. *)
Lemma update_from_spec (n : Z) (buf : scratch) (fr : frame) :
  wf_frame fr -> length buf = 11%nat -> 0 < n ->
  (forall j, 2 <= j < 12 -> j <= n + 1 ->
             nth (Z.to_nat (j - 2)) buf None <> None) ->
  let r := update_from n buf fr in
  res r = Ret tt /\ wf_frame (mem r) /\
  forall j : nat,
    nth j (mem r) x00 =
    if (j =? 0)%nat then xc5
    else if (2 <=? Z.of_nat j) && (Z.of_nat j <? 12)
         then payload_at n buf (Z.of_nat j)
         else nth j fr x00.
Proof.
  intros Hfr Hbuf Hn Hinit. unfold update_from.
  destruct (Z.ltb_spec 0 n) as [_|]; [|lia].
  rewrite bind_unfold. unfold for_range.
  destruct (copy_loop_spec n buf (Z.to_nat (sizeof_tx_msg - 2)) 2 fr Hfr Hbuf
              ltac:(lia) ltac:(unfold sizeof_tx_msg; lia)) as (Hr & Hm & Hnth).
  { intros j Hj. apply Hinit. unfold sizeof_tx_msg in Hj. lia. }
  rewrite Hr. rewrite store_in_bounds by (rewrite Hm; lia).
  cbn [res mem]. split; [reflexivity|]. split.
  - unfold wf_frame. now rewrite set_nth_length.
  - intros j. rewrite nth_set_nth, Hm, Hnth.
    change (Z.to_nat 0) with 0%nat.
    change (2 + Z.of_nat (Z.to_nat (sizeof_tx_msg - 2))) with 12.
    destruct (Nat.eqb_spec j 0); reflexivity.
Qed.

Lemma rtt_read_buffer_length (inp : list byte) :
  length (snd (SEGGER_RTT_Read inp (repeat None (Z.to_nat (sizeof_tx_msg - 1)))
                 (sizeof_tx_msg - 2))) = 11%nat.
Proof.
  unfold SEGGER_RTT_Read. cbn [snd].
  rewrite length_app, length_map, length_skipn, repeat_length, length_firstn.
  change (Z.to_nat (sizeof_tx_msg - 2)) with 10%nat.
  change (Z.to_nat (sizeof_tx_msg - 1)) with 11%nat.
  lia.
Qed.

Lemma rtt_read_cell (inp : list byte) (i : nat) :
  (i < Nat.min (length inp) capacity)%nat ->
  nth i (snd (SEGGER_RTT_Read inp (repeat None (Z.to_nat (sizeof_tx_msg - 1)))
                (sizeof_tx_msg - 2))) None
  = Some (nth i inp x00).
Proof.
  intros Hi. unfold SEGGER_RTT_Read. cbn [snd].
  change (Z.to_nat (sizeof_tx_msg - 2)) with capacity.
  assert (Hlen : length (firstn capacity inp) = Nat.min (length inp) capacity).
  { rewrite length_firstn. apply Nat.min_comm. }
  rewrite app_nth1 by (rewrite length_map; lia).
  rewrite (nth_indep _ None (Some x00)) by (rewrite length_map; lia).
  rewrite map_nth, nth_firstn.
  destruct (Nat.ltb_spec i capacity); [reflexivity | lia].
Qed.

Lemma update_tx_msg_spec (inp : list byte) (fr : frame) :
  wf_frame fr ->
  res (update_tx_msg inp fr) = Ret tt /\
  mem (update_tx_msg inp fr) = ingested inp fr.
Proof.
  intros Hfr. unfold update_tx_msg. rewrite bind_unfold.
  cbn [emit res mem evs].
  pose proof (bytes_read_range inp) as Hn. unfold bytes_read in Hn.
  pose proof (rtt_read_buffer_length inp) as Hbuf.
  pose proof (rtt_read_cell inp) as Hcell.
  set (rd := SEGGER_RTT_Read _ _ _) in *.
  destruct inp as [|b0 inp'] eqn:Einp.
  { rewrite update_from_nonpositive by (rewrite Hn; reflexivity).
    split; reflexivity. }
  rewrite <- Einp in *. set (k := Nat.min (length inp) capacity) in *.
  assert (Hk : (0 < k <= capacity)%nat).
  { subst k. rewrite Einp. cbn [length]. unfold capacity.
    change (Z.to_nat (sizeof_tx_msg - 2)) with 10%nat. lia. }
  assert (Hcap : capacity = 10%nat) by reflexivity.
  destruct (update_from_spec (fst rd) (snd rd) fr Hfr Hbuf) as (Hr & Hm & Hnth).
  { rewrite Hn. lia. }
  { intros j Hj Hle. rewrite Hn in Hle.
    rewrite (Hcell (Z.to_nat (j - 2))) by lia. discriminate. }
  split; [exact Hr|].
  assert (Hing : ingested inp fr = loaded inp fr) by (rewrite Einp; reflexivity).
  rewrite Hing. unfold loaded. fold k.
  assert (Hfk : length (firstn k inp) = k).
  { rewrite length_firstn. subst k. lia. }
  apply (nth_ext _ _ x00 x00).
  - rewrite Hm. cbn [length]. rewrite length_app, repeat_length, Hfk. lia.
  - intros j _. rewrite Hnth.
    destruct j as [|[|j]]; [reflexivity | reflexivity |].
    cbn [Nat.eqb nth].
    destruct (Z.leb_spec 2 (Z.of_nat (S (S j)))); [|lia].
    destruct (Z.ltb_spec (Z.of_nat (S (S j))) 12); cbn [andb].
    + unfold payload_at. rewrite Hn.
      replace (Z.to_nat (Z.of_nat (S (S j)) - 2)) with j by lia.
      destruct (Z.leb_spec (Z.of_nat (S (S j))) (Z.of_nat k + 1)).
      * rewrite Hcell by lia.
        rewrite app_nth1 by lia. rewrite nth_firstn.
        destruct (Nat.ltb_spec j k); [reflexivity | lia].
      * rewrite app_nth2 by lia. symmetry. apply nth_repeat.
    + rewrite nth_overflow by (rewrite Hfr; lia).
      rewrite nth_overflow; [reflexivity|].
      rewrite length_app, repeat_length, Hfk. lia.
Qed.

Lemma ingest_event_access_ok (e : event) : ingest_event e -> frame_access_ok e.
Proof.
  destruct e; cbn; unfold sizeof_tx_msg; try tauto; lia.
Qed.

Lemma update_tx_msg_events (inp : list byte) (fr : frame) :
  wf_frame fr -> Forall ingest_event (evs (update_tx_msg inp fr)).
Proof.
  intros Hfr. unfold update_tx_msg. rewrite bind_unfold.
  cbn [emit res mem evs].
  pose proof (rtt_read_buffer_length inp) as Hbuf.
  set (rd := SEGGER_RTT_Read _ _ _) in *.
  destruct (update_from_safe (fst rd) (snd rd) fr Hfr Hbuf) as (_ & _ & He).
  apply Forall_app; split; [|exact He].
  constructor; [reflexivity | constructor].
Qed.

Lemma seq_num_ingested (inp : list byte) (fr : frame) :
  seq_num (ingested inp fr) = seq_num fr.
Proof. destruct inp; reflexivity. Qed.

Lemma wf_ingested (inp : list byte) (fr : frame) :
  wf_frame fr -> wf_frame (ingested inp fr).
Proof.
  intros Hfr. destruct inp as [|b inp]; [exact Hfr|].
  unfold ingested, loaded, wf_frame. cbn [length].
  rewrite length_app, length_firstn, repeat_length.
  unfold capacity. change (Z.to_nat (sizeof_tx_msg - 2)) with 10%nat.
  cbn [length]. lia.
Qed.

Lemma tag_ingested (inp : list byte) (fr : frame) :
  tag (ingested inp fr) = match inp with [] => tag fr | _ :: _ => xc5 end.
Proof. destruct inp; reflexivity. Qed.

Lemma byte_incr_to_N (b : byte) :
  Byte.to_N (byte_incr b) = ((Byte.to_N b + 1) mod 256)%N.
Proof.
  unfold byte_incr.
  destruct (Byte.of_N ((Byte.to_N b + 1) mod 256)) as [b'|] eqn:E.
  - now apply Byte.to_of_N in E.
  - apply Byte.of_N_None_iff in E.
    pose proof (N.mod_lt (Byte.to_N b + 1) 256 ltac:(discriminate)). lia.
Qed.

Lemma sent_facts (fr : frame) :
  wf_frame fr ->
  wf_frame (sent fr) /\ tag (sent fr) = x00 /\
  seq_num (sent fr) = byte_incr (seq_num fr).
Proof.
  intros Hfr.
  destruct (wf_frame_inv fr Hfr)
    as (b0 & b1 & b2 & b3 & b4 & b5 & b6 & b7 & b8 & b9 & b10 & b11 & ->).
  repeat split.
Qed.

Lemma sent_literal (fr : frame) :
  wf_frame fr ->
  sent fr = x00 :: byte_incr (seq_num fr) :: skipn 2 fr.
Proof.
  intros Hfr.
  destruct (wf_frame_inv fr Hfr)
    as (b0 & b1 & b2 & b3 & b4 & b5 & b6 & b7 & b8 & b9 & b10 & b11 & ->).
  reflexivity.
Qed.

Lemma byte_to_N_inj (a b : byte) : Byte.to_N a = Byte.to_N b -> a = b.
Proof.
  intros H. pose proof (Byte.of_to_N a) as Ha.
  rewrite H, Byte.of_to_N in Ha. now injection Ha.
Qed.

(** ** Event lists *)

Lemma tx_count_app (l1 l2 : list event) :
  tx_count (l1 ++ l2) = (tx_count l1 + tx_count l2)%nat.
Proof. unfold tx_count. now rewrite filter_app, length_app. Qed.

Lemma filter_none {A} (f : A -> bool) (P : A -> Prop) (l : list A) :
  (forall a, P a -> f a = false) -> Forall P l -> filter f l = [].
Proof.
  intros Hf H. induction H as [|a l Ha _ IH]; [reflexivity|].
  cbn. now rewrite (Hf a Ha).
Qed.

Lemma filter_map_none {A B} (f : B -> bool) (g : A -> B) (l : list A) :
  (forall a, f (g a) = false) -> filter f (map g l) = [].
Proof.
  intros Hf. induction l as [|a l IH]; [reflexivity|].
  cbn. now rewrite Hf.
Qed.

Lemma first_tx_data_app (l1 l2 : list event) :
  first_tx_data (l1 ++ l2) =
  match first_tx_data l1 with
  | Some d => Some d
  | None => first_tx_data l2
  end.
Proof.
  induction l1 as [|e l1 IH]; [reflexivity|].
  destruct e; cbn; auto.
Qed.

Lemma first_tx_data_none (P : event -> Prop) (l : list event) :
  (forall e, P e -> is_write_tx_data e = false) ->
  Forall P l -> first_tx_data l = None.
Proof.
  intros HP H. induction H as [|e l He _ IH]; [reflexivity|].
  apply HP in He. destruct e; cbn in *; auto; discriminate.
Qed.

Lemma ingest_event_idle (e : event) : ingest_event e -> idle_event e.
Proof.
  destruct e; cbn; try tauto.
  unfold BLINK_FRAME_SN_IDX. lia.
Qed.

Lemma ingest_event_tag_store (e : event) : ingest_event e -> tag_store_ok e.
Proof.
  destruct e as [i v| | | | | | | | | | | | | | | | | |]; cbn; try tauto.
  destruct i as [|p|p]; try tauto.
  intros [[_ ->]|H]; [now right | lia].
Qed.

(** Discharges [forall e, ingest_event e -> f e = false] for the event
    classifiers. *)
Ltac ingest_false :=
  let a := fresh "a" in
  let H := fresh "H" in
  intros a H; destruct a; cbn in *;
  first [ reflexivity | contradiction
        | apply Z.eqb_neq; unfold BLINK_FRAME_SN_IDX, sizeof_tx_msg in *; lia ].

Lemma iter_byte_incr_to_N (n : nat) (b : byte) :
  Byte.to_N (Nat.iter n byte_incr b) = ((Byte.to_N b + N.of_nat n) mod 256)%N.
Proof.
  induction n as [|n IH].
  - change (Nat.iter 0 byte_incr b) with b.
    rewrite N.add_0_r, N.mod_small; [reflexivity|].
    pose proof (Byte.to_N_bounded b). lia.
  - change (Nat.iter (S n) byte_incr b) with (byte_incr (Nat.iter n byte_incr b)).
    rewrite byte_incr_to_N, IH.
    rewrite Nat2N.inj_succ, N.Div0.add_mod_idemp_l. f_equal. lia.
Qed.

(** ** The loop body *)

Section Cycle.

Context {D : dw_defines}.

Lemma frame_length_less_fcs : FRAME_LENGTH - FCS_LEN = sizeof_tx_msg.
Proof. unfold FRAME_LENGTH. ring. Qed.

Lemma wait_txfrs_run (reads : list Z) (fr : frame) :
  wait_txfrs reads fr =
  MkRun (if existsb txfrs_set reads then Ret tt else Stop Polling) fr
        (map EvReadStatus (polled txfrs_set reads)).
Proof.
  induction reads as [|v rest IH]; [reflexivity|].
  cbn [wait_txfrs existsb polled]. rewrite bind_unfold.
  cbn [emit res mem evs]. unfold txfrs_set at 1 3.
  destruct (Z.land v SYS_STATUS_TXFRS_BIT_MASK =? 0); cbn [negb orb].
  - rewrite IH. reflexivity.
  - reflexivity.
Qed.

Lemma wait_idlerc_run (checks : list Z) (fr : frame) :
  wait_idlerc checks fr =
  MkRun (if existsb idle_rc checks then Ret tt else Stop Polling) fr
        (map EvCheckIdleRc (polled idle_rc checks)).
Proof.
  induction checks as [|c rest IH]; [reflexivity|].
  cbn [wait_idlerc existsb polled]. rewrite bind_unfold.
  cbn [emit res mem evs]. unfold idle_rc at 1 3.
  destruct (c =? 0); cbn [negb orb].
  - rewrite IH. reflexivity.
  - reflexivity.
Qed.

Lemma run_cycle_spec (e : cycle_env) (fr : frame) :
  wf_frame fr ->
  let r0 := update_tx_msg (rtt_pending e) fr in
  run_cycle e fr =
  if Byte.eqb (tag (mem r0)) x00 then r0
  else if existsb txfrs_set (status_reads e)
       then MkRun (Ret tt) (sent (mem r0))
              (evs r0 ++ tx_events (mem r0)
                 ++ map EvReadStatus (polled txfrs_set (status_reads e))
                 ++ done_events (mem r0))
       else MkRun (Stop Polling) (mem r0)
              (evs r0 ++ tx_events (mem r0)
                 ++ map EvReadStatus (polled txfrs_set (status_reads e))).
Proof.
  intros Hfr r0.
  destruct (update_tx_msg_spec (rtt_pending e) fr Hfr) as (Hres & Hmem).
  pose proof (wf_ingested (rtt_pending e) fr Hfr) as Hwf.
  rewrite <- Hmem in Hwf. fold r0 in Hres, Hwf.
  unfold run_cycle. rewrite bind_unfold. fold r0. rewrite Hres.
  rewrite bind_unfold, load_in_bounds by (rewrite Hwf; lia).
  cbn [res mem evs]. change (nth (Z.to_nat 0) (mem r0) x00) with (tag (mem r0)).
  destruct (Byte.eqb (tag (mem r0)) x00); cbn [negb].
  - cbn [ret res mem evs app]. rewrite app_nil_r, <- Hres. apply run_eta.
  - cbv [bind get emit res mem evs].
    rewrite frame_length_less_fcs.
    rewrite firstn_all2 by (rewrite Hwf; apply Nat.le_refl).
    rewrite wait_txfrs_run. cbv [res mem evs].
    destruct (existsb txfrs_set (status_reads e)).
    + rewrite load_in_bounds by (rewrite Hwf; cbv; split; congruence).
      cbv [res mem evs].
      rewrite store_in_bounds by (rewrite Hwf; cbv; split; congruence).
      cbv [res mem evs].
      rewrite store_in_bounds
        by (rewrite set_nth_length, Hwf; cbv; split; congruence).
      cbv [res mem evs]. unfold sent, tx_events, done_events.
      cbn [app]. reflexivity.
    + unfold tx_events. cbn [app]. reflexivity.
Qed.

(** The three ways a pass can go. *)
Lemma run_cycle_cases (e : cycle_env) (fr : frame) :
  wf_frame fr ->
  let r0 := update_tx_msg (rtt_pending e) fr in
  let f1 := ingested (rtt_pending e) fr in
  let polls := map EvReadStatus (polled txfrs_set (status_reads e)) in
  (tag f1 = x00 /\ run_cycle e fr = MkRun (Ret tt) f1 (evs r0)) \/
  (tag f1 <> x00 /\ completes e /\
   run_cycle e fr =
   MkRun (Ret tt) (sent f1)
     (evs r0 ++ tx_events f1 ++ polls ++ done_events f1)) \/
  (tag f1 <> x00 /\ ~ completes e /\
   run_cycle e fr =
   MkRun (Stop Polling) f1 (evs r0 ++ tx_events f1 ++ polls)).
Proof.
  intros Hfr r0 f1 polls.
  pose proof (run_cycle_spec e fr Hfr) as H. cbv zeta in H.
  destruct (update_tx_msg_spec (rtt_pending e) fr Hfr) as (Hres & Hmem).
  fold r0 in H, Hres, Hmem. fold f1 in Hmem. rewrite Hmem in H.
  destruct (Byte.eqb (tag f1) x00) eqn:Etag.
  - left. split; [now apply Byte.byte_dec_bl|].
    rewrite H, <- Hres, <- Hmem. symmetry. apply run_eta.
  - right. apply Byte.eqb_false in Etag. unfold completes.
    destruct (existsb txfrs_set (status_reads e)).
    + left. split; [exact Etag|]. split; [reflexivity | exact H].
    + right. split; [exact Etag|]. split; [discriminate | exact H].
Qed.

Lemma filter_transmission (f : event -> bool) (e : cycle_env) (fr f1 : frame) :
  wf_frame fr ->
  (forall a, ingest_event a -> f a = false) ->
  (forall v, f (EvReadStatus v) = false) ->
  forall tail,
    filter f (evs (update_tx_msg (rtt_pending e) fr) ++ tx_events f1
                ++ map EvReadStatus (polled txfrs_set (status_reads e)) ++ tail)
    = filter f (tx_events f1) ++ filter f tail.
Proof.
  intros Hfr Hi Hr tail.
  rewrite !filter_app.
  rewrite (filter_none f ingest_event) by (auto using update_tx_msg_events).
  rewrite filter_map_none by exact Hr.
  reflexivity.
Qed.

Ltac cycle_cases e fr Hfr :=
  let Htag := fresh "Htag" in
  let Hc := fresh "Hc" in
  let E := fresh "E" in
  destruct (run_cycle_cases e fr Hfr) as [(Htag & E)|[(Htag & Hc & E)|(Htag & Hc & E)]];
  rewrite E; cbn [res mem evs].

Lemma run_cycle_result (e : cycle_env) (fr : frame) :
  wf_frame fr ->
  (res (run_cycle e fr) = Ret tt \/ res (run_cycle e fr) = Stop Polling) /\
  (completes e -> res (run_cycle e fr) = Ret tt).
Proof.
  intros Hfr. cycle_cases e fr Hfr; split; auto.
  intros H. contradiction.
Qed.

Lemma run_cycle_tx_count (e : cycle_env) (fr : frame) :
  wf_frame fr ->
  tx_count (evs (run_cycle e fr)) =
  if Byte.eqb (tag (ingested (rtt_pending e) fr)) x00 then 0%nat else 1%nat.
Proof.
  intros Hfr. unfold tx_count. cycle_cases e fr Hfr.
  - rewrite Htag. cbn [Byte.eqb].
    rewrite (filter_none is_start_tx ingest_event);
      [reflexivity | ingest_false | now apply update_tx_msg_events].
  - destruct (Byte.eqb _ x00) eqn:Eb; [apply Byte.byte_dec_bl in Eb; contradiction|].
    rewrite filter_transmission; [reflexivity | exact Hfr | ingest_false | reflexivity].
  - destruct (Byte.eqb _ x00) eqn:Eb; [apply Byte.byte_dec_bl in Eb; contradiction|].
    rewrite <- (app_nil_r (map EvReadStatus _)).
    rewrite filter_transmission; [reflexivity | exact Hfr | ingest_false | reflexivity].
Qed.

Lemma run_cycle_after (e : cycle_env) (fr : frame) :
  wf_frame fr ->
  res (run_cycle e fr) = Ret tt ->
  wf_frame (mem (run_cycle e fr)) /\
  tag (mem (run_cycle e fr)) = x00 /\
  seq_num (mem (run_cycle e fr)) =
  Nat.iter (tx_count (evs (run_cycle e fr))) byte_incr (seq_num fr).
Proof.
  intros Hfr. rewrite (run_cycle_tx_count e fr Hfr).
  pose proof (wf_ingested (rtt_pending e) fr Hfr) as Hwf.
  cycle_cases e fr Hfr; intros Hres.
  - rewrite Htag. cbn [Byte.eqb Nat.iter nat_rect].
    repeat split; auto using seq_num_ingested.
  - destruct (Byte.eqb _ x00) eqn:Eb; [apply Byte.byte_dec_bl in Eb; contradiction|].
    destruct (sent_facts _ Hwf) as (H1 & H2 & H3).
    repeat split; auto. rewrite H3, seq_num_ingested. reflexivity.
  - discriminate.
Qed.

Lemma Forall_map_event {A} (P : event -> Prop) (g : A -> event) (l : list A) :
  (forall a, P (g a)) -> Forall P (map g l).
Proof. intros H. induction l; cbn; constructor; auto. Qed.

Lemma run_cycle_tag_stores (e : cycle_env) (fr : frame) :
  wf_frame fr -> Forall tag_store_ok (evs (run_cycle e fr)).
Proof.
  intros Hfr.
  assert (H0 : Forall tag_store_ok (evs (update_tx_msg (rtt_pending e) fr))).
  { eapply Forall_impl; [apply ingest_event_tag_store|].
    now apply update_tx_msg_events. }
  assert (Hp : forall l, Forall tag_store_ok (map EvReadStatus l)).
  { intros l. apply Forall_map_event. intros; exact I. }
  cycle_cases e fr Hfr; auto.
  - apply Forall_app; split; [exact H0|].
    apply Forall_app; split; [repeat constructor|].
    apply Forall_app; split; [apply Hp|].
    unfold done_events. constructor; [exact I|].
    constructor; [exact I|].
    constructor; [exact I|].
    constructor; [cbn; now left | constructor].
  - apply Forall_app; split; [exact H0|].
    apply Forall_app; split; [repeat constructor | apply Hp].
Qed.

Lemma run_cycle_filter (f : event -> bool) (e : cycle_env) (fr : frame) :
  wf_frame fr ->
  (forall a, ingest_event a -> f a = false) ->
  (forall v, f (EvReadStatus v) = false) ->
  let f1 := ingested (rtt_pending e) fr in
  filter f (evs (run_cycle e fr)) = [] \/
  filter f (evs (run_cycle e fr)) = filter f (tx_events f1) \/
  (res (run_cycle e fr) = Ret tt /\
   filter f (evs (run_cycle e fr)) =
   filter f (tx_events f1) ++ filter f (done_events f1)).
Proof.
  intros Hfr Hi Hr f1. cycle_cases e fr Hfr.
  - left. apply (filter_none f ingest_event); auto using update_tx_msg_events.
  - right; right. split; [reflexivity|]. now apply filter_transmission.
  - right; left. rewrite <- (app_nil_r (map EvReadStatus _)).
    rewrite filter_transmission by assumption. apply app_nil_r.
Qed.

Lemma run_cycle_no_errors (e : cycle_env) (fr : frame) :
  wf_frame fr ->
  filter is_log_err (evs (run_cycle e fr)) = [] /\
  filter is_configure (evs (run_cycle e fr)) = [].
Proof.
  intros Hfr. split.
  - destruct (run_cycle_filter is_log_err e fr Hfr) as [H|[H|[_ H]]];
      try ingest_false; try reflexivity; rewrite H; reflexivity.
  - destruct (run_cycle_filter is_configure e fr Hfr) as [H|[H|[_ H]]];
      try ingest_false; try reflexivity; rewrite H; reflexivity.
Qed.

Lemma run_cycle_sn_stores (e : cycle_env) (fr : frame) :
  wf_frame fr ->
  length (filter is_sn_store (evs (run_cycle e fr))) =
  length (filter is_write_status (evs (run_cycle e fr))).
Proof.
  intros Hfr.
  cycle_cases e fr Hfr.
  - rewrite !(filter_none _ ingest_event);
      try reflexivity; try ingest_false; now apply update_tx_msg_events.
  - rewrite !filter_transmission;
      try reflexivity; try ingest_false; exact Hfr.
  - rewrite <- (app_nil_r (map EvReadStatus _)).
    rewrite !filter_transmission;
      try reflexivity; try ingest_false; exact Hfr.
Qed.

Lemma run_cycle_first_tx (e : cycle_env) (fr : frame) :
  wf_frame fr ->
  match first_tx_data (evs (run_cycle e fr)) with
  | Some d => seq_num d = seq_num fr
  | None => res (run_cycle e fr) = Ret tt ->
            seq_num (mem (run_cycle e fr)) = seq_num fr
  end.
Proof.
  intros Hfr.
  assert (H0 : first_tx_data (evs (update_tx_msg (rtt_pending e) fr)) = None).
  { apply (first_tx_data_none ingest_event);
      [ingest_false | now apply update_tx_msg_events]. }
  cycle_cases e fr Hfr.
  - rewrite H0. intros _. apply seq_num_ingested.
  - rewrite first_tx_data_app, H0. cbn. apply seq_num_ingested.
  - rewrite first_tx_data_app, H0. cbn. apply seq_num_ingested.
Qed.

(** ** The endless loop, pass by pass *)

Lemma transmit_loop_cons (e : cycle_env) (rest : list cycle_env) (fr : frame) :
  transmit_loop (e :: rest) fr =
  match res (run_cycle e fr) with
  | Ret _ =>
      let r' := transmit_loop rest (mem (run_cycle e fr)) in
      MkRun (res r') (mem r') (evs (run_cycle e fr) ++ evs r')
  | Stop k => MkRun (Stop k) (mem (run_cycle e fr)) (evs (run_cycle e fr))
  end.
Proof. reflexivity. Qed.

Ltac loop_step e fr Hfr :=
  let E := fresh "E" in
  let k := fresh "k" in
  rewrite transmit_loop_cons;
  destruct (res (run_cycle e fr)) as [[]|k] eqn:E; cbv zeta; cbn [res mem evs].

Lemma transmit_loop_result (cycles : list cycle_env) :
  forall fr, wf_frame fr ->
    (res (transmit_loop cycles fr) = Ret tt \/
     res (transmit_loop cycles fr) = Stop Polling) /\
    (Forall completes cycles -> res (transmit_loop cycles fr) = Ret tt).
Proof.
  induction cycles as [|e rest IH]; intros fr Hfr.
  - cbn. auto.
  - destruct (run_cycle_result e fr Hfr) as (Hr & Hc).
    loop_step e fr Hfr.
    + destruct (run_cycle_after e fr Hfr E) as (Hwf & _).
      destruct (IH _ Hwf) as (IH1 & IH2). split; [exact IH1|].
      intros H. inversion H; subst. auto.
    + split.
      * destruct Hr as [Hr|Hr]; [discriminate | now right].
      * intros H. inversion H; subst.
        match goal with Hx : completes e |- _ => specialize (Hc Hx) end.
        discriminate.
Qed.

Lemma transmit_loop_after (cycles : list cycle_env) :
  forall fr, wf_frame fr ->
    res (transmit_loop cycles fr) = Ret tt ->
    wf_frame (mem (transmit_loop cycles fr)) /\
    (tag fr = x00 -> tag (mem (transmit_loop cycles fr)) = x00) /\
    seq_num (mem (transmit_loop cycles fr)) =
    Nat.iter (tx_count (evs (transmit_loop cycles fr))) byte_incr (seq_num fr).
Proof.
  induction cycles as [|e rest IH]; intros fr Hfr.
  - cbn. auto.
  - loop_step e fr Hfr; [|discriminate].
    destruct (run_cycle_after e fr Hfr E) as (Hwf & Htag & Hseq).
    intros Hres. destruct (IH _ Hwf Hres) as (IH1 & IH2 & IH3).
    repeat split; auto.
    rewrite IH3, Hseq, tx_count_app, Nat.add_comm.
    symmetry. apply Nat.iter_add.
Qed.

Lemma transmit_loop_all_input (cycles : list cycle_env) :
  forall fr, wf_frame fr ->
    Forall has_input cycles ->
    res (transmit_loop cycles fr) = Ret tt ->
    tx_count (evs (transmit_loop cycles fr)) = length cycles.
Proof.
  induction cycles as [|e rest IH]; intros fr Hfr Hin.
  - reflexivity.
  - inversion Hin as [|? ? He Hrest]; subst.
    pose proof (run_cycle_tx_count e fr Hfr) as Hc.
    rewrite tag_ingested in Hc. unfold has_input in He.
    destruct (rtt_pending e) as [|b inp]; [contradiction|].
    cbn [Byte.eqb] in Hc.
    loop_step e fr Hfr; [|discriminate].
    destruct (run_cycle_after e fr Hfr E) as (Hwf & _).
    intros Hres. rewrite tx_count_app, Hc, (IH _ Hwf Hrest Hres). reflexivity.
Qed.

Lemma transmit_loop_tag_stores (cycles : list cycle_env) :
  forall fr, wf_frame fr -> Forall tag_store_ok (evs (transmit_loop cycles fr)).
Proof.
  induction cycles as [|e rest IH]; intros fr Hfr.
  - constructor.
  - pose proof (run_cycle_tag_stores e fr Hfr) as Hc.
    loop_step e fr Hfr; [|exact Hc].
    destruct (run_cycle_after e fr Hfr E) as (Hwf & _).
    apply Forall_app; auto.
Qed.

Lemma transmit_loop_no_errors (cycles : list cycle_env) :
  forall fr, wf_frame fr ->
    filter is_log_err (evs (transmit_loop cycles fr)) = [] /\
    filter is_configure (evs (transmit_loop cycles fr)) = [].
Proof.
  induction cycles as [|e rest IH]; intros fr Hfr.
  - cbn. auto.
  - destruct (run_cycle_no_errors e fr Hfr) as (H1 & H2).
    loop_step e fr Hfr; [|auto].
    destruct (run_cycle_after e fr Hfr E) as (Hwf & _).
    destruct (IH _ Hwf) as (IH1 & IH2).
    rewrite !filter_app, H1, H2, IH1, IH2. auto.
Qed.

Lemma transmit_loop_sn_stores (cycles : list cycle_env) :
  forall fr, wf_frame fr ->
    length (filter is_sn_store (evs (transmit_loop cycles fr))) =
    length (filter is_write_status (evs (transmit_loop cycles fr))).
Proof.
  induction cycles as [|e rest IH]; intros fr Hfr.
  - reflexivity.
  - pose proof (run_cycle_sn_stores e fr Hfr) as Hc.
    loop_step e fr Hfr; [|exact Hc].
    destruct (run_cycle_after e fr Hfr E) as (Hwf & _).
    rewrite !filter_app, !length_app, Hc, (IH _ Hwf). reflexivity.
Qed.

Lemma transmit_loop_first_tx (cycles : list cycle_env) :
  forall fr d, wf_frame fr ->
    first_tx_data (evs (transmit_loop cycles fr)) = Some d ->
    seq_num d = seq_num fr.
Proof.
  induction cycles as [|e rest IH]; intros fr d Hfr.
  - discriminate.
  - pose proof (run_cycle_first_tx e fr Hfr) as Hc.
    loop_step e fr Hfr.
    + destruct (run_cycle_after e fr Hfr E) as (Hwf & _).
      rewrite first_tx_data_app.
      destruct (first_tx_data (evs (run_cycle e fr))) as [d'|].
      * intros [= <-]. exact Hc.
      * intros H. rewrite (IH _ _ Hwf H). auto.
    + intros H. now rewrite H in Hc.
Qed.

(** ** Bring-up *)

Lemma program_spec (b : boot_env) (cycles : list cycle_env) :
  program b cycles =
  if existsb idle_rc (idle_checks b) then
    if init_ret b =? DWT_ERROR then
      MkRun (Stop Halted) tx_msg_init (reset_events b ++ init_failed_events b)
    else if configure_ret b =? 0 then
      let r := transmit_loop cycles tx_msg_init in
      MkRun (res r) (mem r) (reset_events b ++ ready_events b ++ evs r)
    else
      MkRun (Stop Halted) tx_msg_init (reset_events b ++ config_failed_events b)
  else MkRun (Stop Polling) tx_msg_init (reset_events b).
Proof.
  unfold program, app_main.
  rewrite bind_unfold. change (store BLINK_FRAME_SN_IDX x00 tx_msg_init)
    with (MkRun (Ret tt) tx_msg_init [EvStore BLINK_FRAME_SN_IDX x00]).
  cbv [bind emit res mem evs]. rewrite wait_idlerc_run. cbv [res mem evs].
  unfold reset_events, init_failed_events, config_failed_events, ready_events.
  destruct (existsb idle_rc (idle_checks b)).
  - destruct (init_ret b =? DWT_ERROR).
    + cbv [halt ret res mem evs]. rewrite <- app_assoc. reflexivity.
    + destruct (configure_ret b =? 0); cbn [negb].
      * cbv [halt ret res mem evs]. rewrite <- app_assoc. reflexivity.
      * cbv [halt ret res mem evs]. rewrite <- app_assoc. reflexivity.
  - reflexivity.
Qed.

End Cycle.

(** ** The claims about [update_tx_msg] *)

(** C1 (bounds safety).  Whatever is pending on RTT -- no byte, ten bytes,
    fifteen bytes or more -- a call of [update_tx_msg] on the 12-byte frame
    returns without an out-of-range or uninitialised access, leaves the
    frame 12 bytes long, stores only into byte 0 and bytes 2..11 of
    [tx_msg], loads only inside [input_buffer], and asks RTT for no more
    than the buffer holds.  The bound of the copy loop does not even rely
    on the read: for any [int] below [INT_MAX] that it might return, no
    index leaves the frame or the 11-byte buffer. *)
Theorem update_tx_msg_stays_in_frame :
  forall (inp : list byte) (fr : frame),
    wf_frame fr ->
    (res (update_tx_msg inp fr) = Ret tt /\
     wf_frame (mem (update_tx_msg inp fr)) /\
     Forall frame_access_ok (evs (update_tx_msg inp fr))) /\
    (forall (n : Z) (buf : scratch),
       INT_MIN <= n < INT_MAX ->
       length buf = 11%nat ->
       res (update_from n buf fr) <> Stop OutOfBounds /\
       wf_frame (mem (update_from n buf fr)) /\
       Forall frame_access_ok (evs (update_from n buf fr))).
Proof.
  intros inp fr Hfr. split.
  - destruct (update_tx_msg_spec inp fr Hfr) as (Hres & Hmem).
    split; [exact Hres|]. split.
    + rewrite Hmem. now apply wf_ingested.
    + eapply Forall_impl; [apply ingest_event_access_ok|].
      now apply update_tx_msg_events.
  - intros n buf _ Hbuf.
    destruct (update_from_safe n buf fr Hfr Hbuf) as (Hr & Hm & He).
    split; [exact Hr|]. split; [exact Hm|].
    eapply Forall_impl; [apply ingest_event_access_ok | exact He].
Qed.

(** C2 (copy and pad).  When the read returns [n > 0] bytes, the frame
    afterwards is the blink tag [0xC5], the old sequence number, the first
    [min n 10] pending bytes in order from byte 2 on, and zeros up to
    byte 11. *)
Theorem update_tx_msg_copies_and_pads :
  forall (inp : list byte) (fr : frame),
    wf_frame fr ->
    0 < bytes_read inp ->
    let r := update_tx_msg inp fr in
    let k := Nat.min (length inp) capacity in
    res r = Ret tt /\
    mem r = xc5 :: seq_num fr :: firstn k inp ++ repeat x00 (capacity - k) /\
    tag (mem r) = xc5 /\
    (forall i, (i < k)%nat -> nth (2 + i) (mem r) x00 = nth i inp x00) /\
    (forall i, (k <= i < capacity)%nat -> nth (2 + i) (mem r) x00 = x00).
Proof.
  intros inp fr Hfr Hn r k.
  destruct (update_tx_msg_spec inp fr Hfr) as (Hres & Hmem).
  fold r in Hres, Hmem.
  assert (Hm : mem r = loaded inp fr).
  { rewrite Hmem. destruct inp; [|reflexivity].
    rewrite bytes_read_range in Hn. cbn in Hn. lia. }
  assert (Hk : length (firstn k inp) = k).
  { rewrite length_firstn. subst k. lia. }
  split; [exact Hres|]. split; [exact Hm|]. rewrite Hm. unfold loaded. fold k.
  split; [reflexivity|]. split.
  - intros i Hi. cbn [Nat.add nth].
    rewrite app_nth1 by lia. rewrite nth_firstn.
    destruct (Nat.ltb_spec i k); [reflexivity | lia].
  - intros i Hi. cbn [Nat.add nth].
    rewrite app_nth2 by lia. rewrite Hk. apply nth_repeat.
Qed.

(** C3 (no input, no change).  When the read returns zero or fewer bytes,
    the call returns and every byte of the frame, type tag and sequence
    number included, is what it was: this holds of [update_tx_msg] with the
    read as modelled, and of the part after the read for any return value
    that is not positive, whatever the buffer holds. *)
Theorem update_tx_msg_without_input :
  forall (fr : frame),
    (forall (inp : list byte),
       bytes_read inp <= 0 ->
       res (update_tx_msg inp fr) = Ret tt /\
       mem (update_tx_msg inp fr) = fr) /\
    (forall (n : Z) (buf : scratch),
       n <= 0 ->
       res (update_from n buf fr) = Ret tt /\
       mem (update_from n buf fr) = fr /\
       evs (update_from n buf fr) = []).
Proof.
  intros fr. split.
  - intros inp Hn. unfold update_tx_msg. rewrite bind_unfold.
    cbn [emit res mem evs].
    rewrite update_from_nonpositive by exact Hn.
    split; reflexivity.
  - intros n buf Hn. rewrite update_from_nonpositive by exact Hn.
    repeat split.
Qed.

(** ** The claims about the loop and bring-up *)

Section Claims.

Context {D : dw_defines}.

Lemma polled_split (done : Z -> bool) (reads : list Z) :
  existsb done reads = true ->
  exists ws v,
    polled done reads = ws ++ [v] /\ done v = true /\
    forallb (fun w => negb (done w)) ws = true.
Proof.
  induction reads as [|v rest IH]; [discriminate|].
  cbn [existsb polled]. destruct (done v) eqn:E.
  - intros _. exists [], v. auto.
  - cbn [orb]. intros H. destruct (IH H) as (ws & v' & Hp & Hv & Hw).
    exists (v :: ws), v'. rewrite Hp. cbn [forallb]. rewrite E, Hw. auto.
Qed.

Lemma at_loop_head_inv (fr : frame) :
  at_loop_head fr -> wf_frame fr /\ tag fr = x00.
Proof.
  intros (b & cycles & Hres & Hmem). rewrite program_spec in Hres, Hmem.
  destruct (existsb idle_rc (idle_checks b)); [|discriminate Hres].
  destruct (init_ret b =? DWT_ERROR); [discriminate Hres|].
  destruct (configure_ret b =? 0); [|discriminate Hres].
  cbv zeta in Hres, Hmem. cbn [res mem] in Hres, Hmem. subst fr.
  destruct (transmit_loop_after cycles tx_msg_init eq_refl Hres) as (H1 & H2 & _).
  auto.
Qed.

Lemma tag_after_input (inp : list byte) (fr : frame) :
  wf_frame fr -> tag fr = x00 ->
  mem (update_tx_msg inp fr) = ingested inp fr /\
  (tag (ingested inp fr) = x00 \/ tag (ingested inp fr) = xc5).
Proof.
  intros Hfr Htag. split; [apply update_tx_msg_spec, Hfr|].
  rewrite tag_ingested. destruct inp; auto.
Qed.

Lemma filter_reset_events (b : boot_env) (f : event -> bool) :
  (forall c, f (EvCheckIdleRc c) = false) ->
  filter f (reset_events b) =
  filter f [EvStore BLINK_FRAME_SN_IDX x00; EvLogInf APP_NAME;
            EvSpiFastrate; EvResetDWIC; EvSleep 2].
Proof.
  intros Hf. unfold reset_events.
  rewrite filter_app, filter_map_none by exact Hf. apply app_nil_r.
Qed.

Lemma first_tx_data_filter (l : list event) :
  filter is_write_tx_data l = [] -> first_tx_data l = None.
Proof.
  induction l as [|e l IH]; [reflexivity|].
  destruct e; cbn; auto; discriminate.
Qed.

Lemma reset_events_tag_stores (b : boot_env) :
  Forall tag_store_ok (reset_events b).
Proof.
  unfold reset_events. apply Forall_app; split.
  - repeat constructor.
  - apply Forall_map_event. intros; exact I.
Qed.

(** C4 (sequence number).  From any 12-byte frame, whatever its sequence
    number, a run of loop passes in which the device reports every
    transmission done returns to the head of the loop with the sequence
    number advanced, modulo 256, by the number of transmissions started, and
    logs no error.  When each of the [N] passes finds input, each transmits,
    and the sequence number is the initial one plus [N] modulo 256. *)
Theorem sequence_number_counts_transmissions :
  forall (cycles : list cycle_env) (fr : frame),
    wf_frame fr ->
    Forall completes cycles ->
    let r := transmit_loop cycles fr in
    res r = Ret tt /\
    Byte.to_N (seq_num (mem r)) =
      ((Byte.to_N (seq_num fr) + N.of_nat (tx_count (evs r))) mod 256)%N /\
    filter is_log_err (evs r) = [] /\
    (Forall has_input cycles ->
     tx_count (evs r) = length cycles /\
     Byte.to_N (seq_num (mem r)) =
       ((Byte.to_N (seq_num fr) + N.of_nat (length cycles)) mod 256)%N).
Proof.
  intros cycles fr Hfr Hc r.
  assert (Hres : res r = Ret tt) by now apply transmit_loop_result.
  destruct (transmit_loop_after cycles fr Hfr Hres) as (_ & _ & Hseq).
  fold r in Hseq.
  assert (Hmod : Byte.to_N (seq_num (mem r)) =
            ((Byte.to_N (seq_num fr) + N.of_nat (tx_count (evs r))) mod 256)%N).
  { rewrite Hseq. apply iter_byte_incr_to_N. }
  split; [exact Hres|]. split; [exact Hmod|]. split.
  - now apply transmit_loop_no_errors.
  - intros Hin.
    pose proof (transmit_loop_all_input cycles fr Hfr Hin Hres) as Hcount.
    fold r in Hcount. split; [exact Hcount|]. now rewrite <- Hcount.
Qed.

(** C5 (transmit gating).  In a pass that starts from a frame the program
    can hold at the head of its loop, [dwt_writetxdata] and [dwt_starttx]
    are called if and only if byte 0 is [0xC5] when [update_tx_msg] has
    returned; and then the frame written is the frame as it is at that
    check. *)
Theorem transmit_iff_tag_ready :
  forall (fr : frame) (e : cycle_env),
    at_loop_head fr ->
    let checked := mem (update_tx_msg (rtt_pending e) fr) in
    let trace := evs (run_cycle e fr) in
    (In EvStartTx trace <-> tag checked = xc5) /\
    ((exists len d off, In (EvWriteTxData len d off) trace) <->
     tag checked = xc5) /\
    (tag checked = xc5 -> In (EvWriteTxData sizeof_tx_msg checked 0) trace).
Proof.
  intros fr e Hhead checked trace.
  destruct (at_loop_head_inv fr Hhead) as (Hfr & Htag0).
  destruct (tag_after_input (rtt_pending e) fr Hfr Htag0) as (Hmem & Hcases).
  fold checked in Hmem.
  pose proof (update_tx_msg_events (rtt_pending e) fr Hfr) as Hev.
  rewrite Forall_forall in Hev.
  assert (Hready : tag checked <> x00 -> tag checked = xc5).
  { rewrite Hmem. destruct Hcases; congruence. }
  assert (Hidle : tag checked = x00 -> tag checked <> xc5).
  { intros ->. discriminate. }
  subst trace. rewrite <- Hmem in Hcases.
  destruct (run_cycle_cases e fr Hfr)
    as [(Ht & E)|[(Ht & _ & E)|(Ht & _ & E)]];
    rewrite <- Hmem in Ht, E; rewrite E; cbn [evs].
  - repeat split.
    + intros H. apply Hev in H. contradiction.
    + intros H. now apply Hidle in H.
    + intros (len & d & off & H). apply Hev in H. contradiction.
    + intros H. now apply Hidle in H.
    + intros H. now apply Hidle in H.
  - repeat split; auto.
    + intros _. apply in_or_app. right. cbn. auto.
    + intros _. exists sizeof_tx_msg, checked, 0.
      apply in_or_app. right. cbn. auto.
    + intros _. apply in_or_app. right. cbn. auto.
  - repeat split; auto.
    + intros _. apply in_or_app. right. cbn. auto.
    + intros _. exists sizeof_tx_msg, checked, 0.
      apply in_or_app. right. cbn. auto.
    + intros _. apply in_or_app. right. cbn. auto.
Qed.

(** C6 (single-shot ready flag, order of a transmitting pass).  A pass in
    which byte 0 is non-zero after [update_tx_msg], and in which the device
    reports the transmission done, returns; after the events of
    [update_tx_msg] it performs, in this order: the hex dump, the write of
    the 12 frame bytes, the frame control write and the start of the
    transmission; the status polls, of which the last and only the last
    shows the sent bit; the write that clears the bit; the sleep of
    [TX_DELAY_MS]; the store into byte 1 of the sequence number plus one
    modulo 256; the store of 0 into byte 0.  The frame it leaves for the
    next [update_tx_msg] is 0, that new sequence number, and the payload as
    it was sent. *)
Theorem transmitting_cycle_in_order :
  forall (e : cycle_env) (fr : frame),
    wf_frame fr ->
    let r0 := update_tx_msg (rtt_pending e) fr in
    let f1 := mem r0 in
    let polls := polled txfrs_set (status_reads e) in
    tag f1 <> x00 ->
    completes e ->
    res (run_cycle e fr) = Ret tt /\
    (exists sn' : byte,
       Byte.to_N sn' = ((Byte.to_N (seq_num fr) + 1) mod 256)%N /\
       evs (run_cycle e fr) =
         evs r0
         ++ [EvHexdump f1 "len 12"%string; EvWriteTxData 12 f1 0;
             EvWriteTxFctrl FRAME_LENGTH 0 0; EvStartTx]
         ++ map EvReadStatus polls
         ++ [EvWriteStatus SYS_STATUS_TXFRS_BIT_MASK; EvSleep 10;
             EvStore 1 sn'; EvStore 0 x00] /\
       mem (run_cycle e fr) = x00 :: sn' :: skipn 2 f1) /\
    (exists ws v, polls = ws ++ [v] /\ txfrs_set v = true /\
                  forallb (fun w => negb (txfrs_set w)) ws = true) /\
    Byte.to_N (seq_num (mem (run_cycle e fr))) =
      ((Byte.to_N (seq_num fr) + 1) mod 256)%N /\
    tag (mem (run_cycle e fr)) = x00.
Proof.
  intros e fr Hfr r0 f1 polls Htag Hc.
  destruct (update_tx_msg_spec (rtt_pending e) fr Hfr) as (_ & Hmem).
  fold r0 in Hmem. fold f1 in Hmem.
  pose proof (wf_ingested (rtt_pending e) fr Hfr) as Hwf.
  rewrite <- Hmem in Hwf.
  assert (Hsn : Byte.to_N (byte_incr (seq_num f1)) =
                ((Byte.to_N (seq_num fr) + 1) mod 256)%N).
  { rewrite byte_incr_to_N, Hmem, seq_num_ingested. reflexivity. }
  destruct (sent_facts f1 Hwf) as (_ & Hz & Hs).
  destruct (run_cycle_cases e fr Hfr)
    as [(Ht & E)|[(Ht & _ & E)|(Ht & Hn & E)]];
    rewrite <- Hmem in Ht, E.
  - contradiction.
  - rewrite E. cbn [res mem evs].
    split; [reflexivity|]. split; [|split; [|split]].
    + exists (byte_incr (seq_num f1)).
      split; [exact Hsn|]. split; [reflexivity|].
      now apply sent_literal.
    + now apply polled_split.
    + rewrite Hs. exact Hsn.
    + exact Hz.
  - contradiction.
Qed.

(** C7 (idle pass).  A pass in which byte 0 is 0 after [update_tx_msg] is
    that call and nothing more: no call of the transmit path, no sleep, no
    store into the sequence number, which keeps its value.  Hence two
    passes in a row with nothing pending, from a frame the program can hold
    at the head of its loop, only read RTT twice: the frame is unchanged
    and no transmission is started. *)
Theorem idle_cycle_skips_transmit :
  (forall (e : cycle_env) (fr : frame),
     wf_frame fr ->
     let r0 := update_tx_msg (rtt_pending e) fr in
     tag (mem r0) = x00 ->
     run_cycle e fr = r0 /\
     Forall idle_event (evs (run_cycle e fr)) /\
     filter is_transmit (evs (run_cycle e fr)) = [] /\
     filter is_sleep (evs (run_cycle e fr)) = [] /\
     seq_num (mem (run_cycle e fr)) = seq_num fr) /\
  (forall (fr : frame) (e1 e2 : cycle_env),
     at_loop_head fr ->
     rtt_pending e1 = [] ->
     rtt_pending e2 = [] ->
     let r := transmit_loop [e1; e2] fr in
     res r = Ret tt /\
     mem r = fr /\
     evs r = [EvRttRead 10 0; EvRttRead 10 0] /\
     tx_count (evs r) = 0%nat).
Proof.
  split.
  - intros e fr Hfr r0 Htag.
    destruct (update_tx_msg_spec (rtt_pending e) fr Hfr) as (Hres & Hmem).
    fold r0 in Hres, Hmem.
    pose proof (update_tx_msg_events (rtt_pending e) fr Hfr) as Hev.
    fold r0 in Hev.
    assert (E : run_cycle e fr = r0).
    { pose proof (run_cycle_spec e fr Hfr) as H. cbv zeta in H.
      fold r0 in H. now rewrite Htag in H. }
    rewrite E. split; [reflexivity|]. split; [|split; [|split]].
    + eapply Forall_impl; [apply ingest_event_idle | exact Hev].
    + apply (filter_none _ ingest_event); [ingest_false | exact Hev].
    + apply (filter_none _ ingest_event); [ingest_false | exact Hev].
    + rewrite Hmem. apply seq_num_ingested.
  - intros fr e1 e2 Hhead H1 H2 r.
    destruct (at_loop_head_inv fr Hhead) as (Hfr & Htag).
    assert (Hidle : forall e, rtt_pending e = [] ->
              run_cycle e fr = MkRun (Ret tt) fr [EvRttRead 10 0]).
    { intros e He. pose proof (run_cycle_spec e fr Hfr) as H.
      cbv zeta in H. rewrite He in H.
      change (update_tx_msg [] fr) with (MkRun (Ret tt) fr [EvRttRead 10 0]) in H.
      cbn [mem] in H. now rewrite Htag in H. }
    subst r. rewrite transmit_loop_cons, (Hidle e1 H1). cbn [res mem evs].
    cbv zeta. rewrite transmit_loop_cons, (Hidle e2 H2). cbn [res mem evs].
    cbv zeta. cbn. auto.
Qed.

(** C8 (fatal bring-up failures).  If [dwt_configure] answers non-zero, no
    call of the transmit path is ever made and the loop is never reached,
    however long the program is observed; and once the idle wait is over and
    [dwt_initialise] has not failed, the program has logged the error
    [CONFIG FAILED] right after the call and is parked in [while (1)].  If
    [dwt_initialise] answers [DWT_ERROR] the same holds with the error
    [INIT FAILED], and [dwt_configure] is not even called. *)
Theorem bring_up_failure_halts :
  forall (b : boot_env) (cycles : list cycle_env),
    let r := program b cycles in
    (configure_ret b <> 0 ->
     filter is_transmit (evs r) = [] /\
     res r <> Ret tt /\
     (existsb idle_rc (idle_checks b) = true ->
      init_ret b <> DWT_ERROR ->
      res r = Stop Halted /\
      evs r = reset_events b
              ++ [EvInitialise (init_ret b); EvSetLeds;
                  EvConfigure (configure_ret b);
                  EvLogErr "CONFIG FAILED"%string])) /\
    (init_ret b = DWT_ERROR ->
     filter is_transmit (evs r) = [] /\
     filter is_configure (evs r) = [] /\
     res r <> Ret tt /\
     (existsb idle_rc (idle_checks b) = true ->
      res r = Stop Halted /\
      evs r = reset_events b
              ++ [EvInitialise (init_ret b); EvLogErr "INIT FAILED"%string])).
Proof.
  intros b cycles r.
  pose proof (filter_reset_events b) as Hreset.
  subst r. rewrite program_spec. split.
  - intros Hcfg. apply Z.eqb_neq in Hcfg. rewrite Hcfg.
    destruct (existsb idle_rc (idle_checks b)).
    + destruct (init_ret b =? DWT_ERROR) eqn:Ei; cbn [res evs].
      * rewrite filter_app, Hreset by reflexivity.
        split; [reflexivity|]. split; [discriminate|].
        intros _ H. apply Z.eqb_eq in Ei. contradiction.
      * rewrite filter_app, Hreset by reflexivity.
        split; [reflexivity|]. split; [discriminate|]. auto.
    + cbn [res evs]. rewrite Hreset by reflexivity.
      split; [reflexivity|]. split; discriminate.
  - intros Hinit. apply Z.eqb_eq in Hinit. rewrite Hinit.
    destruct (existsb idle_rc (idle_checks b)); cbn [res evs].
    + rewrite !filter_app, !Hreset by reflexivity.
      split; [reflexivity|]. split; [reflexivity|]. split; [discriminate|]. auto.
    + rewrite !Hreset by reflexivity.
      split; [reflexivity|]. split; [reflexivity|]. split; discriminate.
Qed.

(** C9 (type tag invariant).  Byte 0 starts at 0; every store into it,
    anywhere in a run of the program, writes 0 or [0xC5]; whenever the loop
    is at the head of a pass byte 0 is 0 or [0xC5]; and at the check after
    [update_tx_msg] it is again one of the two, so that the test the code
    makes, byte 0 different from 0, says the same as byte 0 equal to
    [0xC5]. *)
Theorem type_tag_is_zero_or_blink :
  forall (b : boot_env) (cycles : list cycle_env),
    let r := program b cycles in
    tag tx_msg_init = x00 /\
    Forall tag_store_ok (evs r) /\
    (res r = Ret tt -> tag (mem r) = x00 \/ tag (mem r) = xc5) /\
    (res r = Ret tt ->
     forall e : cycle_env,
       let t := tag (mem (update_tx_msg (rtt_pending e) (mem r))) in
       (t = x00 \/ t = xc5) /\ (t <> x00 <-> t = xc5)).
Proof.
  intros b cycles r. split; [reflexivity|]. split.
  - subst r. rewrite program_spec.
    pose proof (reset_events_tag_stores b) as Hreset.
    destruct (existsb idle_rc (idle_checks b)); [|exact Hreset].
    destruct (init_ret b =? DWT_ERROR).
    { cbn [evs]. apply Forall_app; split; [exact Hreset | repeat constructor]. }
    destruct (configure_ret b =? 0).
    + cbv zeta. cbn [evs]. apply Forall_app; split; [exact Hreset|].
      apply Forall_app; split; [repeat constructor|].
      now apply transmit_loop_tag_stores.
    + cbn [evs]. apply Forall_app; split; [exact Hreset | repeat constructor].
  - assert (Hhead : res r = Ret tt -> wf_frame (mem r) /\ tag (mem r) = x00).
    { intros Hres. apply at_loop_head_inv. exists b, cycles. auto. }
    split.
    + intros Hres. left. now apply Hhead.
    + intros Hres e t. destruct (Hhead Hres) as (Hfr & Htag).
      destruct (tag_after_input (rtt_pending e) (mem r) Hfr Htag) as (Hmem & Hc).
      subst t. rewrite Hmem.
      split; [exact Hc|]. destruct Hc as [-> | ->]; split; congruence.
Qed.

(** C10 (sequence number frame condition).  [update_tx_msg] never stores
    into byte 1 and leaves the sequence number as it was, whatever is
    pending.  In a run of the program the first event is the store of 0
    into byte 1, the stores into byte 1 are that one and one for each
    transmission whose sent bit was cleared, and the first frame handed to
    [dwt_writetxdata] carries sequence number 0. *)
Theorem sequence_number_untouched_by_input :
  (forall (inp : list byte) (fr : frame),
     wf_frame fr ->
     seq_num (mem (update_tx_msg inp fr)) = seq_num fr /\
     filter is_sn_store (evs (update_tx_msg inp fr)) = []) /\
  (forall (b : boot_env) (cycles : list cycle_env),
     let r := program b cycles in
     (exists rest, evs r = EvStore 1 x00 :: rest) /\
     length (filter is_sn_store (evs r)) =
       S (length (filter is_write_status (evs r))) /\
     (forall d, first_tx_data (evs r) = Some d -> seq_num d = x00)).
Proof.
  split.
  - intros inp fr Hfr. split.
    + destruct (update_tx_msg_spec inp fr Hfr) as (_ & ->).
      apply seq_num_ingested.
    + apply (filter_none _ ingest_event);
        [ingest_false | now apply update_tx_msg_events].
  - intros b cycles r.
    pose proof (filter_reset_events b) as Hreset.
    assert (Hfirst : first_tx_data (reset_events b) = None).
    { apply first_tx_data_filter. now rewrite Hreset. }
    subst r. rewrite program_spec. split; [|split].
    + unfold reset_events.
      destruct (existsb idle_rc (idle_checks b)); [|cbn; eauto].
      destruct (init_ret b =? DWT_ERROR); [cbn; eauto|].
      destruct (configure_ret b =? 0); cbn; eauto.
    + destruct (existsb idle_rc (idle_checks b));
        [|cbn [evs]; now rewrite !Hreset].
      destruct (init_ret b =? DWT_ERROR);
        [cbn [evs]; now rewrite !filter_app, !Hreset|].
      destruct (configure_ret b =? 0);
        [|cbn [evs]; now rewrite !filter_app, !Hreset].
      cbv zeta. cbn [evs]. rewrite !filter_app, !Hreset by reflexivity.
      rewrite !length_app, transmit_loop_sn_stores by reflexivity.
      reflexivity.
    + intros d.
      destruct (existsb idle_rc (idle_checks b));
        [|cbn [evs]; rewrite Hfirst; discriminate].
      destruct (init_ret b =? DWT_ERROR);
        [cbn [evs]; rewrite first_tx_data_app, Hfirst; discriminate|].
      destruct (configure_ret b =? 0);
        [|cbn [evs]; rewrite first_tx_data_app, Hfirst; discriminate].
      cbv zeta. cbn [evs]. rewrite !first_tx_data_app, Hfirst.
      cbn [ready_events first_tx_data].
      intros H. apply transmit_loop_first_tx in H; [exact H | reflexivity].
Qed.

End Claims.

(** ** The statements at concrete inputs *)

(** Fifteen bytes pending on a zeroed frame; and a read that claimed
    fifteen bytes would still keep every index inside. *)
Lemma overlong_input_stays_in_frame :
  wf_frame tx_msg_init /\
  INT_MIN <= 15 < INT_MAX /\
  (res (update_tx_msg overlong tx_msg_init) = Ret tt /\
   wf_frame (mem (update_tx_msg overlong tx_msg_init)) /\
   Forall frame_access_ok (evs (update_tx_msg overlong tx_msg_init))) /\
  res (update_from 15 (repeat (Some x41) 11) tx_msg_init) <> Stop OutOfBounds.
Proof.
  assert (Hn : INT_MIN <= 15 < INT_MAX).
  { split; [intros H; vm_compute in H; discriminate H | reflexivity]. }
  split; [reflexivity|]. split; [exact Hn|].
  destruct (update_tx_msg_stays_in_frame overlong tx_msg_init eq_refl)
    as (H1 & H2).
  split; [exact H1|].
  exact (proj1 (H2 15 (repeat (Some x41) 11) Hn eq_refl)).
Defined.

(** Scenario A: ["ABCDEFGH"] lands in bytes 2..9, bytes 10 and 11 are zero. *)
Lemma scenario_A :
  wf_frame tx_msg_init /\
  0 < bytes_read ABCDEFGH /\
  mem (update_tx_msg ABCDEFGH tx_msg_init) =
    [xc5; x00; x41; x42; x43; x44; x45; x46; x47; x48; x00; x00].
Proof.
  split; [reflexivity|]. split; [reflexivity|].
  exact (proj1 (proj2 (update_tx_msg_copies_and_pads ABCDEFGH tx_msg_init
                         eq_refl eq_refl))).
Defined.

(** Nothing pending: a frame left ready stays as it is; and so it does
    were the read to return -1. *)
Lemma stale_frame_kept :
  bytes_read [] <= 0 /\
  mem (update_tx_msg [] stale_frame) = stale_frame /\
  mem (update_from (-1) [] stale_frame) = stale_frame.
Proof.
  split; [apply Z.le_refl|]. split.
  - exact (proj2 (proj1 (update_tx_msg_without_input stale_frame) []
                    (Z.le_refl 0))).
  - refine (proj1 (proj2 (proj2 (update_tx_msg_without_input stale_frame)
              (-1) [] _))).
    discriminate.
Defined.

(** Scenario C: one transmission from sequence number 255 gives 0. *)
Lemma scenario_C :
  wf_frame wrapping_frame /\
  Forall (@completes dw3000) [input_cycle] /\
  res (@transmit_loop dw3000 [input_cycle] wrapping_frame) = Ret tt /\
  Byte.to_N (seq_num (mem (@transmit_loop dw3000 [input_cycle] wrapping_frame)))
    = 0%N /\
  filter is_log_err (evs (@transmit_loop dw3000 [input_cycle] wrapping_frame))
    = [].
Proof.
  assert (Hc : Forall (@completes dw3000) [input_cycle]).
  { constructor; [reflexivity | constructor]. }
  split; [reflexivity|]. split; [exact Hc|].
  destruct (@sequence_number_counts_transmissions dw3000 [input_cycle]
              wrapping_frame eq_refl Hc) as (H1 & H2 & H3 & _).
  split; [exact H1|]. split; [exact H2 | exact H3].
Defined.

Lemma tx_msg_init_at_loop_head : @at_loop_head dw3000 tx_msg_init.
Proof. exists good_boot, []. split; reflexivity. Defined.

(** After bring-up, eight pending bytes start a transmission. *)
Lemma input_starts_transmission :
  @at_loop_head dw3000 tx_msg_init /\
  In EvStartTx (evs (@run_cycle dw3000 input_cycle tx_msg_init)).
Proof.
  split; [exact tx_msg_init_at_loop_head|].
  apply (proj1 (@transmit_iff_tag_ready dw3000 tx_msg_init input_cycle
                  tx_msg_init_at_loop_head)).
  reflexivity.
Defined.

(** The pass that sends ["ABCDEFGH"] from the zeroed frame leaves byte 0
    at 0 and the sequence number at 1. *)
Lemma input_cycle_resets_tag :
  wf_frame tx_msg_init /\
  @completes dw3000 input_cycle /\
  tag (mem (@run_cycle dw3000 input_cycle tx_msg_init)) = x00 /\
  seq_num (mem (@run_cycle dw3000 input_cycle tx_msg_init)) = x01 /\
  mem (@run_cycle dw3000 input_cycle tx_msg_init) =
    [x00; x01; x41; x42; x43; x44; x45; x46; x47; x48; x00; x00].
Proof.
  assert (Ht : tag (mem (update_tx_msg (rtt_pending input_cycle) tx_msg_init))
               <> x00) by (vm_compute; discriminate).
  split; [reflexivity|]. split; [reflexivity|].
  destruct (@transmitting_cycle_in_order dw3000 input_cycle tx_msg_init
              eq_refl Ht eq_refl)
    as (_ & (sn' & Hsn & _ & Hmem) & _ & _ & Htag).
  assert (Hone : sn' = x01) by (apply byte_to_N_inj; exact Hsn).
  split; [exact Htag|]. rewrite Hmem, Hone. split; reflexivity.
Defined.

(** Scenario B: two passes with nothing pending. *)
Lemma scenario_B :
  @at_loop_head dw3000 tx_msg_init /\
  @run_cycle dw3000 quiet_cycle tx_msg_init = update_tx_msg [] tx_msg_init /\
  mem (@transmit_loop dw3000 [quiet_cycle; quiet_cycle] tx_msg_init)
    = tx_msg_init /\
  tx_count (evs (@transmit_loop dw3000 [quiet_cycle; quiet_cycle] tx_msg_init))
    = 0%nat.
Proof.
  split; [exact tx_msg_init_at_loop_head|]. split.
  - apply (proj1 (@idle_cycle_skips_transmit dw3000) quiet_cycle tx_msg_init
             eq_refl eq_refl).
  - pose proof (proj2 (@idle_cycle_skips_transmit dw3000) tx_msg_init
                  quiet_cycle quiet_cycle tx_msg_init_at_loop_head
                  eq_refl eq_refl) as H.
    split; apply H.
Defined.

(** Scenario D: [dwt_configure] answers 3, input is pending, nothing is sent. *)
Lemma scenario_D :
  configure_ret rejected_boot <> 0 /\
  init_ret dead_boot = @DWT_ERROR dw3000 /\
  res (@program dw3000 rejected_boot [input_cycle]) = Stop Halted /\
  filter is_transmit (evs (@program dw3000 rejected_boot [input_cycle])) = [] /\
  res (@program dw3000 dead_boot [input_cycle]) = Stop Halted /\
  filter is_transmit (evs (@program dw3000 dead_boot [input_cycle])) = [].
Proof.
  assert (Hcfg : configure_ret rejected_boot <> 0) by discriminate.
  assert (Hinit : init_ret rejected_boot <> @DWT_ERROR dw3000) by discriminate.
  destruct (@bring_up_failure_halts dw3000 rejected_boot [input_cycle])
    as ((Htx & _ & Hhalt) & _); [exact Hcfg|].
  destruct (Hhalt eq_refl Hinit) as (Hres & _).
  destruct (@bring_up_failure_halts dw3000 dead_boot [input_cycle])
    as (_ & (Htx' & _ & _ & Hhalt')); [reflexivity|].
  destruct (Hhalt' eq_refl) as (Hres' & _).
  repeat split; assumption.
Defined.

(** After bring-up and one transmission byte 0 is 0 or [0xC5]. *)
Lemma tag_after_one_transmission :
  res (@program dw3000 good_boot [input_cycle]) = Ret tt /\
  (tag (mem (@program dw3000 good_boot [input_cycle])) = x00 \/
   tag (mem (@program dw3000 good_boot [input_cycle])) = xc5).
Proof.
  split; [reflexivity|].
  exact (proj1 (proj2 (proj2
           (@type_tag_is_zero_or_blink dw3000 good_boot [input_cycle])))
           eq_refl).
Defined.

(** The first frame on the air after bring-up has sequence number 0, and
    input on a frame with sequence number 7 leaves the 7. *)
Lemma first_frame_has_sequence_zero :
  wf_frame stale_frame /\
  seq_num (mem (update_tx_msg overlong stale_frame)) = x07 /\
  forall d,
    first_tx_data (evs (@program dw3000 good_boot [quiet_cycle; input_cycle]))
      = Some d ->
    seq_num d = x00.
Proof.
  split; [reflexivity|]. split.
  - apply (proj1 (@sequence_number_untouched_by_input dw3000) overlong
             stale_frame eq_refl).
  - apply (proj2 (@sequence_number_untouched_by_input dw3000) good_boot
             [quiet_cycle; input_cycle]).
Defined.

(** ** Beyond the claims: [update_tx_msg] *)

(** X1 (trace of one call, in closed form).  With nothing pending the call
    is the read and nothing else.  With [k > 0] bytes delivered it loads
    [input_buffer[0..k-1]], each once and each right before the store into
    [tx_msg[2..k+1]]; it zeroes the payload bytes left, in ascending order;
    and the store of [0xC5] into byte 0 comes last, after the whole payload
    is in place. *)
Theorem update_tx_msg_trace :
  forall (inp : list byte) (fr : frame),
    wf_frame fr ->
    evs (update_tx_msg inp fr) = ingest_trace inp.
Proof.
  intros inp fr Hfr.
  destruct (wf_frame_inv fr Hfr)
    as (b0 & b1 & b2 & b3 & b4 & b5 & b6 & b7 & b8 & b9 & b10 & b11 & ->).
  do 11 (destruct inp as [|? inp]; [reflexivity|]).
  reflexivity.
Qed.

Lemma update_tx_msg_trace_overlong :
  wf_frame stale_frame /\
  evs (update_tx_msg overlong stale_frame) = ingest_trace overlong.
Proof.
  split; [reflexivity|].
  exact (update_tx_msg_trace overlong stale_frame eq_refl).
Defined.

(** ** Beyond the claims: traces of the loop and of the program *)

Lemma tx_frames_app (l1 l2 : list event) :
  tx_frames (l1 ++ l2) = tx_frames l1 ++ tx_frames l2.
Proof.
  induction l1 as [|e l1 IH]; [reflexivity|].
  destruct e; cbn; rewrite ?IH; reflexivity.
Qed.

Lemma tx_frames_filter (l : list event) :
  filter is_write_tx_data l = [] -> tx_frames l = [].
Proof.
  induction l as [|e l IH]; [reflexivity|].
  destruct e; cbn; auto; discriminate.
Qed.

Lemma sleep_total_app (l1 l2 : list event) :
  sleep_total (l1 ++ l2) = sleep_total l1 + sleep_total l2.
Proof.
  induction l1 as [|e l1 IH]; [reflexivity|].
  destruct e; cbn [app sleep_total]; rewrite ?IH; lia.
Qed.

Lemma sleep_total_filter (l : list event) :
  filter is_sleep l = [] -> sleep_total l = 0.
Proof.
  induction l as [|e l IH]; [reflexivity|].
  destruct e; cbn; auto; discriminate.
Qed.

Lemma polled_all (done : Z -> bool) (reads : list Z) :
  existsb done reads = false -> polled done reads = reads.
Proof.
  induction reads as [|v rest IH]; [reflexivity|].
  cbn [existsb polled]. destruct (done v); [discriminate|].
  cbn [orb]. intros H. now rewrite IH.
Qed.

Section Traces.

Context {D : dw_defines}.

Ltac pass_cases e fr Hfr :=
  let Htag := fresh "Htag" in
  let Hc := fresh "Hc" in
  let E := fresh "E" in
  destruct (run_cycle_cases e fr Hfr)
    as [(Htag & E)|[(Htag & Hc & E)|(Htag & Hc & E)]];
  rewrite E; cbn [res mem evs].

Ltac next_pass e fr :=
  let E := fresh "E" in
  let k := fresh "k" in
  rewrite transmit_loop_cons;
  destruct (res (run_cycle e fr)) as [[]|k] eqn:E; cbv zeta; cbn [res mem evs].

Lemma ingest_quiet (f : event -> bool) (inp : list byte) (fr : frame) :
  wf_frame fr ->
  (forall a, ingest_event a -> f a = false) ->
  filter f (evs (update_tx_msg inp fr)) = [].
Proof.
  intros Hfr Hf. apply (filter_none f ingest_event); [exact Hf|].
  now apply update_tx_msg_events.
Qed.



Lemma run_cycle_tx_frames (e : cycle_env) (fr : frame) :
  wf_frame fr ->
  tx_frames (evs (run_cycle e fr)) =
  if Byte.eqb (tag (ingested (rtt_pending e) fr)) x00
  then [] else [ingested (rtt_pending e) fr].
Proof.
  intros Hfr.
  assert (H0 : tx_frames (evs (update_tx_msg (rtt_pending e) fr)) = []).
  { apply tx_frames_filter, ingest_quiet; [exact Hfr | ingest_false]. }
  assert (Hp : forall l, tx_frames (map EvReadStatus l) = []).
  { intros l. apply tx_frames_filter, filter_map_none. reflexivity. }
  pass_cases e fr Hfr.
  - rewrite Htag. exact H0.
  - destruct (Byte.eqb _ x00) eqn:Eb; [apply Byte.byte_dec_bl in Eb; contradiction|].
    rewrite !tx_frames_app, H0, Hp. reflexivity.
  - destruct (Byte.eqb _ x00) eqn:Eb; [apply Byte.byte_dec_bl in Eb; contradiction|].
    rewrite !tx_frames_app, H0, Hp. reflexivity.
Qed.

(** The sequence numbers of the frames a run of passes writes to the
    device count up from the one it started with. *)
Lemma transmit_loop_sequence (cycles : list cycle_env) :
  forall (fr : frame) (k : nat) (d : list byte),
    wf_frame fr ->
    nth_error (tx_frames (evs (transmit_loop cycles fr))) k = Some d ->
    seq_num d = Nat.iter k byte_incr (seq_num fr).
Proof.
  induction cycles as [|e rest IH]; intros fr k d Hfr.
  - destruct k; discriminate.
  - pose proof (run_cycle_tx_frames e fr Hfr) as Hfrm.
    pose proof (seq_num_ingested (rtt_pending e) fr) as Hsn.
    next_pass e fr.
    + destruct (run_cycle_after e fr Hfr E) as (Hwf & _ & Hseq).
      rewrite (run_cycle_tx_count e fr Hfr) in Hseq.
      rewrite tx_frames_app, Hfrm.
      destruct (Byte.eqb _ x00).
      * cbn [app]. intros H. rewrite (IH _ _ _ Hwf H). now rewrite Hseq.
      * destruct k as [|k]; cbn [app nth_error].
        -- intros [= <-]. exact Hsn.
        -- intros H. rewrite (IH _ _ _ Hwf H), Hseq.
           symmetry. apply Nat.iter_succ_r.
    + rewrite Hfrm. destruct (Byte.eqb _ x00).
      * destruct k; discriminate.
      * destruct k as [|[|k]]; cbn [nth_error]; try discriminate.
        intros [= <-]. exact Hsn.
Qed.

(** From the head of the loop, every frame written to the device is a
    12-byte blink. *)
Lemma transmit_loop_blinks (cycles : list cycle_env) :
  forall fr, wf_frame fr -> tag fr = x00 ->
    Forall (fun d => length d = 12%nat /\ tag d = xc5)
           (tx_frames (evs (transmit_loop cycles fr))).
Proof.
  induction cycles as [|e rest IH]; intros fr Hfr Htag0; [constructor|].
  pose proof (run_cycle_tx_frames e fr Hfr) as Hfrm.
  pose proof (wf_ingested (rtt_pending e) fr Hfr) as Hwf1.
  assert (Hone : Forall (fun d => length d = 12%nat /\ tag d = xc5)
                   (tx_frames (evs (run_cycle e fr)))).
  { rewrite Hfrm. rewrite tag_ingested.
    destruct (rtt_pending e) as [|b inp] eqn:Ein.
    - rewrite Htag0. constructor.
    - cbn [Byte.eqb]. constructor; [|constructor].
      split; [exact Hwf1 | reflexivity]. }
  next_pass e fr; [|exact Hone].
  destruct (run_cycle_after e fr Hfr E) as (Hwf & Htag & _).
  rewrite tx_frames_app. apply Forall_app. auto.
Qed.


End Traces.

(** ** Beyond the claims: the order of the driver calls *)

Section Protocol.

Context {D : dw_defines}.

Ltac pass_cases e fr Hfr :=
  let Htag := fresh "Htag" in
  let Hc := fresh "Hc" in
  let E := fresh "E" in
  destruct (run_cycle_cases e fr Hfr)
    as [(Htag & E)|[(Htag & Hc & E)|(Htag & Hc & E)]];
  rewrite E; cbn [res mem evs].

Lemma dw_run_app (l1 l2 : list event) :
  forall s,
    dw_run s (l1 ++ l2) =
    match dw_run s l1 with
    | Some s' => dw_run s' l2
    | None => None
    end.
Proof.
  induction l1 as [|e l1 IH]; intros s; [reflexivity|].
  cbn [app dw_run]. destruct (dw_step s e); auto.
Qed.

Lemma dw_run_ingest (l : list event) (s : dw_state) :
  Forall ingest_event l -> dw_run s l = Some s.
Proof.
  intros H. induction H as [|e l He _ IH]; [reflexivity|].
  cbn [dw_run]. destruct e; cbn in He; try contradiction; exact IH.
Qed.

Lemma dw_run_status_polls (reads : list Z) :
  dw_run DwTransmitting (map EvReadStatus (polled txfrs_set reads)) =
  Some (if existsb txfrs_set reads then DwSent else DwTransmitting).
Proof.
  induction reads as [|v rest IH]; [reflexivity|].
  cbn [polled existsb]. destruct (txfrs_set v) eqn:E.
  - cbn [map dw_run dw_step orb]. rewrite E. reflexivity.
  - cbn [map dw_run dw_step orb]. rewrite E. exact IH.
Qed.

Lemma dw_run_idle_polls (checks : list Z) :
  dw_run DwReset (map EvCheckIdleRc (polled idle_rc checks)) =
  Some (if existsb idle_rc checks then DwIdle else DwReset).
Proof.
  induction checks as [|c rest IH]; [reflexivity|].
  cbn [polled existsb]. destruct (idle_rc c) eqn:E.
  - cbn [map dw_run dw_step orb]. rewrite E. reflexivity.
  - cbn [map dw_run dw_step orb]. rewrite E. exact IH.
Qed.

Lemma dw_run_tx_events (fr : frame) :
  wf_frame fr -> dw_run DwReady (tx_events fr) = Some DwTransmitting.
Proof.
  intros Hfr. unfold tx_events, FRAME_LENGTH. cbn [dw_run dw_step].
  rewrite Hfr, !Z.eqb_refl. reflexivity.
Qed.

Lemma dw_run_done_events (fr : frame) :
  dw_run DwSent (done_events fr) = Some DwReady.
Proof.
  unfold done_events. cbn [dw_run dw_step]. now rewrite Z.eqb_refl.
Qed.

Lemma dw_run_cycle (e : cycle_env) (fr : frame) :
  wf_frame fr ->
  dw_run DwReady (evs (run_cycle e fr)) =
  Some (match res (run_cycle e fr) with
        | Ret _ => DwReady
        | Stop _ => DwTransmitting
        end).
Proof.
  intros Hfr.
  pose proof (update_tx_msg_events (rtt_pending e) fr Hfr) as Hev.
  pose proof (wf_ingested (rtt_pending e) fr Hfr) as Hwf.
  pass_cases e fr Hfr.
  - now apply dw_run_ingest.
  - rewrite dw_run_app, dw_run_ingest by exact Hev.
    rewrite dw_run_app, dw_run_tx_events by exact Hwf.
    rewrite dw_run_app, dw_run_status_polls, Hc.
    apply dw_run_done_events.
  - rewrite dw_run_app, dw_run_ingest by exact Hev.
    rewrite dw_run_app, dw_run_tx_events by exact Hwf.
    rewrite dw_run_status_polls.
    destruct (existsb txfrs_set (status_reads e)) eqn:Ex; [|reflexivity].
    exfalso. apply Hc. exact Ex.
Qed.

Lemma dw_run_loop (cycles : list cycle_env) :
  forall fr, wf_frame fr ->
    dw_run DwReady (evs (transmit_loop cycles fr)) =
    Some (match res (transmit_loop cycles fr) with
          | Ret _ => DwReady
          | Stop _ => DwTransmitting
          end).
Proof.
  induction cycles as [|e rest IH]; intros fr Hfr; [reflexivity|].
  pose proof (dw_run_cycle e fr Hfr) as Hc.
  rewrite transmit_loop_cons.
  destruct (res (run_cycle e fr)) as [[]|k] eqn:E; cbv zeta; cbn [res mem evs].
  - destruct (run_cycle_after e fr Hfr E) as (Hwf & _).
    rewrite dw_run_app, Hc. now apply IH.
  - exact Hc.
Qed.

Lemma sleep_total_cycle (e : cycle_env) (fr : frame) :
  wf_frame fr ->
  sleep_total (evs (run_cycle e fr)) =
  TX_DELAY_MS * Z.of_nat (length (filter is_write_status (evs (run_cycle e fr)))).
Proof.
  intros Hfr.
  assert (H0 : sleep_total (evs (update_tx_msg (rtt_pending e) fr)) = 0).
  { apply sleep_total_filter, (filter_none _ ingest_event);
      [ingest_false | now apply update_tx_msg_events]. }
  assert (Hp : forall l, sleep_total (map EvReadStatus l) = 0).
  { intros l. apply sleep_total_filter, filter_map_none. reflexivity. }
  pass_cases e fr Hfr.
  - rewrite H0, (filter_none _ ingest_event);
      [reflexivity | ingest_false | now apply update_tx_msg_events].
  - rewrite filter_transmission; [|exact Hfr | ingest_false | reflexivity].
    rewrite !sleep_total_app, H0, Hp. reflexivity.
  - rewrite <- (app_nil_r (map EvReadStatus _)) at 2.
    rewrite filter_transmission; [|exact Hfr | ingest_false | reflexivity].
    rewrite !sleep_total_app, H0, Hp. reflexivity.
Qed.

Lemma sleep_total_loop (cycles : list cycle_env) :
  forall fr, wf_frame fr ->
    sleep_total (evs (transmit_loop cycles fr)) =
    TX_DELAY_MS *
    Z.of_nat (length (filter is_write_status (evs (transmit_loop cycles fr)))).
Proof.
  induction cycles as [|e rest IH]; intros fr Hfr; [reflexivity|].
  pose proof (sleep_total_cycle e fr Hfr) as Hc.
  rewrite transmit_loop_cons.
  destruct (res (run_cycle e fr)) as [[]|k] eqn:E; cbv zeta; cbn [res mem evs].
  - destruct (run_cycle_after e fr Hfr E) as (Hwf & _).
    rewrite sleep_total_app, filter_app, length_app, Hc, (IH _ Hwf). lia.
  - exact Hc.
Qed.

End Protocol.

(** ** Beyond the claims: the statements *)

Section Beyond.

Context {D : dw_defines}.

(** X2 (a transmission that never completes).  When byte 0 is non-zero
    after [update_tx_msg] and no status read of the pass shows the sent
    bit, the loop is still polling: the transmission was started, every
    status read supplied was consumed, the sent bit was not cleared, no
    sleep was made, the sequence number was not incremented and byte 0 was
    not reset; no later pass begins. *)
Theorem stalled_transmission_blocks_loop :
  forall (e : cycle_env) (rest : list cycle_env) (fr : frame),
    wf_frame fr ->
    let r0 := update_tx_msg (rtt_pending e) fr in
    tag (mem r0) <> x00 ->
    ~ completes e ->
    let r := transmit_loop (e :: rest) fr in
    res r = Stop Polling /\
    mem r = mem r0 /\
    seq_num (mem r) = seq_num fr /\
    evs r = evs r0
            ++ [EvHexdump (mem r0) "len 12"%string; EvWriteTxData 12 (mem r0) 0;
                EvWriteTxFctrl FRAME_LENGTH 0 0; EvStartTx]
            ++ map EvReadStatus (status_reads e).
Proof.
  intros e rest fr Hfr r0 Htag Hn r.
  destruct (update_tx_msg_spec (rtt_pending e) fr Hfr) as (_ & Hmem).
  fold r0 in Hmem.
  assert (Hall : polled txfrs_set (status_reads e) = status_reads e).
  { apply polled_all. unfold completes in Hn.
    destruct (existsb txfrs_set (status_reads e)); [now elim Hn | reflexivity]. }
  subst r. rewrite transmit_loop_cons.
  destruct (run_cycle_cases e fr Hfr)
    as [(Ht & E)|[(Ht & Hc & E)|(Ht & _ & E)]];
    rewrite <- Hmem in Ht, E.
  - contradiction.
  - contradiction.
  - rewrite E, Hall. cbn [res mem evs].
    repeat split. rewrite Hmem. apply seq_num_ingested.
Qed.


(** X4 (what goes on the air is a blink).  Every frame the program hands
    to [dwt_writetxdata] is 12 bytes long and has [0xC5] in byte 0. *)
Theorem frames_on_air_are_blinks :
  forall (b : boot_env) (cycles : list cycle_env),
    Forall (fun d => length d = 12%nat /\ tag d = xc5)
           (tx_frames (evs (program b cycles))).
Proof.
  intros b cycles. rewrite program_spec.
  pose proof (filter_reset_events b is_write_tx_data (fun _ => eq_refl)) as Hr.
  apply tx_frames_filter in Hr.
  destruct (existsb idle_rc (idle_checks b));
    [|cbn [evs]; rewrite Hr; constructor].
  destruct (init_ret b =? DWT_ERROR);
    [cbn [evs]; rewrite tx_frames_app, Hr; constructor|].
  destruct (configure_ret b =? 0);
    [|cbn [evs]; rewrite tx_frames_app, Hr; constructor].
  cbv zeta. cbn [evs]. rewrite !tx_frames_app, Hr. cbn [ready_events tx_frames app].
  now apply transmit_loop_blinks.
Qed.

(** X5 (sequence numbers on the air).  Counting from 0, the [k]-th frame
    the program hands to [dwt_writetxdata] carries sequence number
    [k mod 256]: no number is skipped and none is used twice in a row. *)
Theorem frames_on_air_count_up :
  forall (b : boot_env) (cycles : list cycle_env) (k : nat) (d : list byte),
    nth_error (tx_frames (evs (program b cycles))) k = Some d ->
    Byte.to_N (seq_num d) = (N.of_nat k mod 256)%N.
Proof.
  intros b cycles k d. rewrite program_spec.
  pose proof (filter_reset_events b is_write_tx_data (fun _ => eq_refl)) as Hr.
  apply tx_frames_filter in Hr.
  destruct (existsb idle_rc (idle_checks b));
    [|cbn [evs]; rewrite Hr; destruct k; discriminate].
  destruct (init_ret b =? DWT_ERROR);
    [cbn [evs]; rewrite tx_frames_app, Hr; destruct k; discriminate|].
  destruct (configure_ret b =? 0);
    [|cbn [evs]; rewrite tx_frames_app, Hr; destruct k; discriminate].
  cbv zeta. cbn [evs]. rewrite !tx_frames_app, Hr. cbn [ready_events tx_frames app].
  intros H. apply transmit_loop_sequence in H; [|reflexivity].
  rewrite H. apply (iter_byte_incr_to_N k x00).
Qed.


(** X7 (order of the driver calls).  Every trace of the program follows the
    device's handshake: SPI rate, reset, idle checks until one is non-zero,
    [dwt_initialise], LEDs, [dwt_configure], [dwt_configuretxrf], and then
    only rounds of frame data (12 bytes at offset 0), frame control
    (12 + [FCS_LEN], offset 0, no ranging), start, status reads until the
    sent bit shows, and the write that clears it.  No call is made after a
    failed [dwt_initialise] or [dwt_configure], and no transmission is
    started while another has not been seen complete and cleared.  At the
    head of the loop the device is ready; in a halt it has failed; in a
    busy-wait it is waiting for IDLE_RC or transmitting. *)
Theorem driver_calls_in_order :
  forall (b : boot_env) (cycles : list cycle_env),
    exists s : dw_state,
      dw_run DwOff (evs (program b cycles)) = Some s /\
      (res (program b cycles) = Ret tt -> s = DwReady) /\
      (res (program b cycles) = Stop Halted -> s = DwFailed) /\
      (res (program b cycles) = Stop Polling ->
       s = DwReset \/ s = DwTransmitting).
Proof.
  intros b cycles. rewrite program_spec.
  assert (Hreset : dw_run DwOff (reset_events b) =
            Some (if existsb idle_rc (idle_checks b) then DwIdle else DwReset)).
  { unfold reset_events. rewrite dw_run_app. cbn [dw_run dw_step].
    apply dw_run_idle_polls. }
  destruct (existsb idle_rc (idle_checks b)).
  - destruct (init_ret b =? DWT_ERROR) eqn:Ei.
    { exists DwFailed. cbn [res evs]. rewrite dw_run_app, Hreset.
      unfold init_failed_events. cbn [dw_run dw_step]. rewrite Ei.
      repeat split; auto; discriminate. }
    destruct (configure_ret b =? 0) eqn:Ec.
    + cbv zeta. cbn [res evs].
      pose proof (dw_run_loop cycles tx_msg_init eq_refl) as Hloop.
      eexists. rewrite dw_run_app, Hreset, dw_run_app.
      unfold ready_events. cbn [dw_run dw_step]. rewrite Ei, Ec.
      split; [exact Hloop|].
      destruct (transmit_loop_result cycles tx_msg_init eq_refl) as ([H|H] & _);
        rewrite H; repeat split; auto; discriminate.
    + exists DwFailed. cbn [res evs]. rewrite dw_run_app, Hreset.
      unfold config_failed_events. cbn [dw_run dw_step]. rewrite Ei, Ec.
      repeat split; auto; discriminate.
  - exists DwReset. cbn [res evs]. repeat split; auto; discriminate.
Qed.

(** X8 (where the time goes).  The program sleeps 2 ms once, during
    bring-up, and [TX_DELAY_MS] after each transmission whose sent bit it
    has cleared, and nowhere else: a pass that sends nothing does not
    sleep. *)
Theorem sleep_accounting :
  forall (b : boot_env) (cycles : list cycle_env),
    sleep_total (evs (program b cycles)) =
    2 + TX_DELAY_MS *
        Z.of_nat (length (filter is_write_status (evs (program b cycles)))).
Proof.
  intros b cycles. rewrite program_spec.
  pose proof (filter_reset_events b is_write_status (fun _ => eq_refl)) as Hw.
  assert (Hs : sleep_total (reset_events b) = 2).
  { unfold reset_events. rewrite sleep_total_app.
    rewrite (sleep_total_filter (map _ _)) by (now apply filter_map_none).
    reflexivity. }
  destruct (existsb idle_rc (idle_checks b));
    [|cbn [evs]; rewrite Hs, Hw; reflexivity].
  destruct (init_ret b =? DWT_ERROR);
    [cbn [evs]; rewrite sleep_total_app, filter_app, Hs, Hw; reflexivity|].
  destruct (configure_ret b =? 0);
    [|cbn [evs]; rewrite sleep_total_app, filter_app, Hs, Hw; reflexivity].
  cbv zeta. cbn [evs].
  rewrite !sleep_total_app, !filter_app, !length_app, Hs, Hw.
  rewrite (sleep_total_loop cycles tx_msg_init eq_refl).
  cbn [ready_events sleep_total filter is_write_status length]. lia.
Qed.

(** X9 (the gate is "non-zero").  The loop body tests byte 0 against 0, not
    against [0xC5]: run on a 12-byte frame whose byte 0 holds any non-zero
    value, with nothing pending, it hands that very frame to the device,
    and leaves 0 in byte 0, the sequence number plus one modulo 256 in
    byte 1, and the payload as it was. *)
Theorem nonzero_tag_is_sent :
  forall (e : cycle_env) (fr : frame),
    wf_frame fr ->
    tag fr <> x00 ->
    rtt_pending e = [] ->
    completes e ->
    res (run_cycle e fr) = Ret tt /\
    tx_frames (evs (run_cycle e fr)) = [fr] /\
    (exists sn' : byte,
       Byte.to_N sn' = ((Byte.to_N (seq_num fr) + 1) mod 256)%N /\
       mem (run_cycle e fr) = x00 :: sn' :: skipn 2 fr) /\
    tag (mem (run_cycle e fr)) = x00 /\
    Byte.to_N (seq_num (mem (run_cycle e fr))) =
      ((Byte.to_N (seq_num fr) + 1) mod 256)%N.
Proof.
  intros e fr Hfr Htag Hin Hc.
  pose proof (run_cycle_tx_frames e fr Hfr) as Hfrm.
  destruct (sent_facts fr Hfr) as (_ & Hz & Hs).
  destruct (run_cycle_cases e fr Hfr)
    as [(Ht & E)|[(Ht & _ & E)|(Ht & Hn & E)]];
    rewrite Hin in *; cbn [ingested] in *.
  - contradiction.
  - destruct (Byte.eqb (tag fr) x00) eqn:Eb;
      [apply Byte.byte_dec_bl in Eb; contradiction|].
    rewrite Hfrm, E. cbn [res mem].
    split; [reflexivity|]. split; [reflexivity|]. split; [|split].
    + exists (byte_incr (seq_num fr)).
      split; [apply byte_incr_to_N | now apply sent_literal].
    + exact Hz.
    + rewrite Hs. apply byte_incr_to_N.
  - contradiction.
Qed.

(** X10 (a device that never gets idle).  If [dwt_checkidlerc] never
    answers non-zero, the program gets no further than its idle wait: after
    the store of the sequence number, the banner, the SPI rate, the reset
    and the 2 ms sleep it only polls; [dwt_initialise] and [dwt_configure]
    are not called, nothing is read from RTT and nothing is sent. *)
Theorem idle_wait_blocks_bring_up :
  forall (b : boot_env) (cycles : list cycle_env),
    existsb idle_rc (idle_checks b) = false ->
    res (program b cycles) = Stop Polling /\
    mem (program b cycles) = tx_msg_init /\
    evs (program b cycles) =
      [EvStore 1 x00; EvLogInf APP_NAME; EvSpiFastrate; EvResetDWIC; EvSleep 2]
      ++ map EvCheckIdleRc (idle_checks b).
Proof.
  intros b cycles H. rewrite program_spec, H. cbn [res mem evs].
  unfold reset_events. rewrite polled_all by exact H. repeat split.
Qed.

End Beyond.

(** ** The further statements at concrete inputs *)

(** Eight bytes pending and a sent bit that never shows: the second pass
    never begins and the sequence number stays 0. *)
Lemma stalled_cycle_blocks :
  wf_frame tx_msg_init /\
  ~ @completes dw3000 stalled_cycle /\
  res (@transmit_loop dw3000 [stalled_cycle; input_cycle] tx_msg_init)
    = Stop Polling /\
  seq_num (mem (@transmit_loop dw3000 [stalled_cycle; input_cycle] tx_msg_init))
    = x00.
Proof.
  assert (Hn : ~ @completes dw3000 stalled_cycle) by discriminate.
  assert (Ht : tag (mem (update_tx_msg (rtt_pending stalled_cycle) tx_msg_init))
               <> x00) by (vm_compute; discriminate).
  split; [reflexivity|]. split; [exact Hn|].
  destruct (@stalled_transmission_blocks_loop dw3000 stalled_cycle [input_cycle]
              tx_msg_init eq_refl Ht Hn) as (H1 & _ & H3 & _).
  split; [exact H1 | exact H3].
Defined.

(** Three passes: the second frame on the air has sequence number 1. *)
Lemma second_frame_has_sequence_one :
  nth_error
    (tx_frames (evs (@program dw3000 good_boot
                       [input_cycle; prompt_cycle; overlong_cycle]))) 1
    = Some (blink x01 overlong) /\
  Byte.to_N (seq_num (blink x01 overlong)) = 1%N.
Proof.
  split; [reflexivity|].
  exact (@frames_on_air_count_up dw3000 good_boot
           [input_cycle; prompt_cycle; overlong_cycle] 1 (blink x01 overlong)
           eq_refl).
Defined.



(** After bring-up and one transmission the device is ready again. *)
Lemma ready_after_one_transmission :
  res (@program dw3000 good_boot [input_cycle]) = Ret tt /\
  @dw_run dw3000 DwOff (evs (@program dw3000 good_boot [input_cycle]))
    = Some DwReady.
Proof.
  split; [reflexivity|].
  destruct (@driver_calls_in_order dw3000 good_boot [input_cycle])
    as (s & Hrun & Hret & _).
  rewrite Hrun. f_equal. apply Hret. reflexivity.
Defined.

(** A frame with 1 in byte 0, sequence number 7 and nothing pending goes
    out as it is, and is left with 0 in byte 0 and sequence number 8. *)
Lemma odd_frame_is_sent :
  wf_frame odd_frame /\
  tag odd_frame <> x00 /\
  @completes dw3000 prompt_cycle /\
  tx_frames (evs (@run_cycle dw3000 prompt_cycle odd_frame)) = [odd_frame] /\
  mem (@run_cycle dw3000 prompt_cycle odd_frame) =
    [x00; x08; x61; x62; x63; x00; x00; x00; x00; x00; x00; x00].
Proof.
  assert (Ht : tag odd_frame <> x00) by discriminate.
  split; [reflexivity|]. split; [exact Ht|]. split; [reflexivity|].
  destruct (@nonzero_tag_is_sent dw3000 prompt_cycle odd_frame
              eq_refl Ht eq_refl eq_refl)
    as (_ & Hfrm & (sn' & Hsn & Hmem) & _).
  assert (Height : sn' = x08) by (apply byte_to_N_inj; exact Hsn).
  split; [exact Hfrm|]. rewrite Hmem, Height. reflexivity.
Defined.

(** Three idle checks that all answer 0, with input waiting. *)
Lemma stuck_boot_only_polls :
  existsb idle_rc (idle_checks stuck_boot) = false /\
  res (@program dw3000 stuck_boot [input_cycle]) = Stop Polling /\
  filter is_transmit (evs (@program dw3000 stuck_boot [input_cycle])) = [].
Proof.
  split; [reflexivity|].
  destruct (@idle_wait_blocks_bring_up dw3000 stuck_boot [input_cycle] eq_refl)
    as (H1 & _ & H3).
  split; [exact H1|]. rewrite H3. reflexivity.
Defined.
